(** * Extractive summarizer ([app.py], [summarize_text_spacy])

    A shallow embedding of the scoring-and-selection core of the
    repository, followed by the properties its specification states.

    Modelling decisions, in the order the code meets them:

    - [str] is a [string] of 8-bit code points (the Latin-1 range of
      Python's [str]); [strip], [lower] and [join] follow Python on
      that range.
    - The spaCy pipeline [nlp] is an argument of the function, as in the
      source: any function from text to a [Doc].  A [Doc] exposes what
      the code reads: its tokens ([for token in doc]) and its sentence
      spans ([doc.sents]); a span exposes [start], its tokens and its
      [text].  What spaCy guarantees about them (the sentences partition
      the tokens, starts increase, a span's text is a piece of the
      document text) is never built in: a theorem that needs one of
      these facts takes it as a hypothesis.
    - [STOP_WORDS] is spaCy's constant; it is a parameter (a membership
      test).  [string.punctuation] is written out.
    - Python's [float] is an abstract type [F] with the operations the
      code uses (class [PyFloat]).  The selection, counting and ordering
      theorems hold for every such arithmetic; the statements about the
      values of the weights are proved for exact rational arithmetic
      (instance [Q_float]), which is also the arithmetic of every
      concrete evaluation below.
    - A [dict] is an insertion-ordered association list with Python's
      update-in-place semantics; [heapq.nlargest] and [sorted] follow
      their documented behaviour (stable).
    - Exceptions are values of a small error monad ([result]).
    - [int()] at line 63 and the three file readers of the front end can
      raise.  The summarizer and the front end are first given where
      these succeed ([summarize_text_spacy], module [App]); module
      [Full] gives them with these failures. *)

From Stdlib Require Import ZArith QArith Qround List String Ascii Bool Lia.
From Stdlib Require Import Permutation Sorting.Sorted.
Import ListNotations.

Local Open Scope string_scope.
Local Open Scope list_scope.
Local Open Scope Z_scope.

Set Implicit Arguments.

(* ================================================================== *)
(** ** Python strings *)

Module PyStr.

(** [str.isspace] on one code point below 256. *)
Definition isspace (c : ascii) : bool :=
  let n := N_of_ascii c in
  (((9 <=? n) && (n <=? 13)) || ((28 <=? n) && (n <=? 32))
   || (n =? 133) || (n =? 160))%N.

Fixpoint lstrip (s : string) : string :=
  match s with
  | EmptyString => EmptyString
  | String c s' => if isspace c then lstrip s' else s
  end.

Fixpoint rstrip (s : string) : string :=
  match s with
  | EmptyString => EmptyString
  | String c s' =>
      match rstrip s' with
      | EmptyString => if isspace c then EmptyString else String c EmptyString
      | r => String c r
      end
  end.

(** [s.strip()] *)
Definition strip (s : string) : string := rstrip (lstrip s).

Definition lower_char (c : ascii) : ascii :=
  let n := N_of_ascii c in
  if (((65 <=? n) && (n <=? 90))
      || ((192 <=? n) && (n <=? 222) && negb (n =? 215)))%N
  then ascii_of_N (n + 32) else c.

(** [s.lower()] *)
Fixpoint lower (s : string) : string :=
  match s with
  | EmptyString => EmptyString
  | String c s' => String (lower_char c) (lower s')
  end.

(** [sep.join(l)] *)
Definition join (sep : string) (l : list string) : string :=
  String.concat sep l.

(** [not s]: the empty string is the only falsy string. *)
Definition falsy (s : string) : bool :=
  match s with EmptyString => true | _ => false end.

(** Membership in [string.punctuation], one code point. *)
Definition punctuation_char (c : ascii) : bool :=
  let n := N_of_ascii c in
  (((33 <=? n) && (n <=? 47)) || ((58 <=? n) && (n <=? 64))
   || ((91 <=? n) && (n <=? 96)) || ((123 <=? n) && (n <=? 126)))%N.

(** [s in set(punctuation)]: the set holds the one-character strings
    of [string.punctuation], so only a one-character [s] can be in it. *)
Definition in_punct_set (s : string) : bool :=
  match s with
  | String c EmptyString => punctuation_char c
  | _ => false
  end.

(** Every code point of [s] is white space. *)
Fixpoint all_space (s : string) : bool :=
  match s with
  | EmptyString => true
  | String c s' => isspace c && all_space s'
  end.


End PyStr.

(* ================================================================== *)
(** ** Tokens, spans and documents (what the code reads of spaCy) *)

Module Token.
Record t := mk {
    text : string;
    lemma_ : string;
    is_space : bool;
    is_punct : bool;
    is_stop : bool
  }.

Definition eq_dec (a b : t) : {a = b} + {a <> b}.
Proof. decide equality; first [apply bool_dec | apply string_dec]. Defined.
End Token.

Module Span.
Record t := mk {
    start : Z;
    tokens : list Token.t;
    text : string
  }.

Definition eq_dec (a b : t) : {a = b} + {a <> b}.
Proof.
  decide equality;
    first [apply string_dec | apply (list_eq_dec Token.eq_dec) | apply Z.eq_dec].
Defined.
End Span.

Module Doc.
Record t := mk {
    tokens : list Token.t;
    sents : list Span.t
  }.
End Doc.

(* ================================================================== *)
(** ** Exceptions *)

Inductive exn :=
| ZeroDivisionError
| ValueError
| OverflowError
| UnicodeDecodeError
| LibraryError.      (* an exception raised inside pdfplumber or python-docx *)

Inductive result (A : Type) :=
| Ok (a : A)
| Raise (e : exn).
Arguments Ok {A} a.
Arguments Raise {A} e.

Definition bind {A B} (m : result A) (f : A -> result B) : result B :=
  match m with
  | Ok a => f a
  | Raise e => Raise e
  end.

Notation "x <- m ;; k" := (bind m (fun x => k))
  (at level 61, m at next level, right associativity).

(** A [for] loop whose body may raise: the state is threaded left to
    right and the first exception ends the loop. *)
Fixpoint for_each {A S} (body : S -> A -> result S) (l : list A) (s : S)
  : result S :=
  match l with
  | [] => Ok s
  | a :: l' => s' <- body s a ;; for_each body l' s'
  end.

(* ================================================================== *)
(** ** Order of elements in a list *)

(** [x] stands somewhere before [y] in [l]. *)
Definition before {A} (x y : A) (l : list A) : Prop :=
  exists l1 l2 l3, l = l1 ++ x :: l2 ++ y :: l3.

(** [l1] is [l2] with some elements left out, order kept. *)
Inductive subseq {A} : list A -> list A -> Prop :=
| subseq_nil : forall l, subseq [] l
| subseq_skip : forall x l1 l2, subseq l1 l2 -> subseq l1 (x :: l2)
| subseq_take : forall x l1 l2, subseq l1 l2 -> subseq (x :: l1) (x :: l2).

(* ================================================================== *)
(** ** Python dictionaries (insertion-ordered) *)

Section Dict.
Context {K V : Type} (eq_dec : forall a b : K, {a = b} + {a <> b}).

Definition dict := list (K * V).

(** [d.get(k)] *)
Fixpoint dict_get (d : dict) (k : K) : option V :=
  match d with
  | [] => None
  | (k', v) :: d' => if eq_dec k k' then Some v else dict_get d' k
  end.

(** [d.get(k, dflt)] *)
Definition dict_get_default (d : dict) (k : K) (dflt : V) : V :=
  match dict_get d k with Some v => v | None => dflt end.

(** [d[k] = v]: an existing key keeps its place, a new key goes last. *)
Fixpoint dict_set (d : dict) (k : K) (v : V) : dict :=
  match d with
  | [] => [(k, v)]
  | (k', v') :: d' =>
      if eq_dec k k' then (k', v) :: d' else (k', v') :: dict_set d' k v
  end.

Definition dict_keys (d : dict) : list K := map fst d.
Definition dict_values (d : dict) : list V := map snd d.

(** [not d] *)
Definition dict_falsy (d : dict) : bool :=
  match d with [] => true | _ => false end.
End Dict.
Arguments dict : clear implicits.

(* ================================================================== *)
(** ** [sorted], [heapq.nlargest], slices, [max] *)

Section Sorting.
Context {A K : Type} (lt : K -> K -> bool) (key : A -> K).

(** One step of a stable ascending sort: [x] stood before every
    element of [l], so it passes only the elements strictly below it. *)
Fixpoint insert_asc (x : A) (l : list A) : list A :=
  match l with
  | [] => [x]
  | y :: l' =>
      if lt (key y) (key x) then y :: insert_asc x l' else x :: l
  end.

(** [sorted(l, key=key)] *)
Definition sorted (l : list A) : list A := fold_right insert_asc [] l.

(** One step of a stable descending sort: [x] passes only the elements
    strictly above it. *)
Fixpoint insert_desc (x : A) (l : list A) : list A :=
  match l with
  | [] => [x]
  | y :: l' =>
      if lt (key x) (key y) then y :: insert_desc x l' else x :: l
  end.

(** [sorted(l, key=key, reverse=True)]: equal keys keep their order. *)
Definition sorted_reverse (l : list A) : list A :=
  fold_right insert_desc [] l.

(** [heapq.nlargest(n, l, key=key)], documented as
    [sorted(l, key=key, reverse=True)[:n]]; for [n <= 0] it is empty. *)
Definition nlargest (n : Z) (l : list A) : list A :=
  if n <=? 0 then [] else firstn (Z.to_nat n) (sorted_reverse l).
End Sorting.

(** [l[:n]], also for a negative [n] (counted from the end). *)
Definition slice_to {A} (l : list A) (n : Z) : list A :=
  if 0 <=? n then firstn (Z.to_nat n) l
  else firstn (Z.to_nat (Z.of_nat (List.length l) + n)) l.

(** [max(l)] on integers; an empty argument raises [ValueError]. *)
Definition py_max (l : list Z) : result Z :=
  match l with
  | [] => Raise ValueError
  | x :: l' => Ok (fold_left Z.max l' x)
  end.

(* ================================================================== *)
(** ** Floating-point operations used by the code *)

(** [F] stands for Python's [float].  The two divisions raise exactly
    when the divisor is zero ([py_int_truediv], [py_float_div_int]).
    [trunc] is [int(x)] where [int] is defined; [int] raises on an
    infinite or NaN argument, which the product of line 63 can be (an
    infinite or NaN [ratio], or a finite one large enough for the product
    to overflow).  The definitions of this section take line 63 where
    [int] is defined; module [Full] below models it with its failure, and
    [Full_agrees] relates the two. *)

Class PyFloat (F : Type) := {
  of_int : Z -> F;               (* float(n), and the literal 0.0 *)
  fadd : F -> F -> F;            (* x + y *)
  fmul : F -> F -> F;            (* x * y *)
  fdiv : F -> F -> F;            (* x / y for y <> 0 *)
  int_truediv : Z -> Z -> F;     (* a / b on ints, b <> 0 *)
  flt : F -> F -> bool;          (* x < y *)
  trunc : F -> Z                 (* int(x) *)
}.

(** [a / b] on two ints. *)
Definition py_int_truediv {F} `{PyFloat F} (a b : Z) : result F :=
  if b =? 0 then Raise ZeroDivisionError else Ok (int_truediv a b).

(** [x / n] with [x] a float and [n] an int. *)
Definition py_float_div_int {F} `{PyFloat F} (x : F) (n : Z) : result F :=
  if n =? 0 then Raise ZeroDivisionError else Ok (fdiv x (of_int n)).

(** Exact rational arithmetic. *)
Definition Qltb (x y : Q) : bool :=
  Qnum x * QDen y <? Qnum y * QDen x.

Definition Qtrunc (x : Q) : Z := Z.quot (Qnum x) (QDen x).

#[export] Instance Q_float : PyFloat Q := {
  of_int := inject_Z;
  fadd := Qplus;
  fmul := Qmult;
  fdiv := Qdiv;
  int_truediv := fun a b => Qdiv (inject_Z a) (inject_Z b);
  flt := Qltb;
  trunc := Qtrunc
}.

(* ================================================================== *)
(** ** The summarizer *)

Section Summarizer.
Context {F : Type} `{PyFloat F}.
Variable STOP_WORDS : string -> bool.

(** Lines 28-39: the content-lemma counter. *)
Definition count_step (word_freq : dict string Z) (token : Token.t)
  : dict string Z :=
  if Token.is_space token || Token.is_punct token then word_freq
  else if Token.is_stop token then word_freq
  else if PyStr.in_punct_set (Token.text token) then word_freq
  else
    let key := PyStr.lower (Token.lemma_ token) in
    if PyStr.falsy key || STOP_WORDS key then word_freq
    else dict_set string_dec word_freq key
           (dict_get_default string_dec word_freq key 0 + 1).

Definition count_words (doc : list Token.t) : dict string Z :=
  fold_left count_step doc [].

(** Lines 45-46: every counter is replaced by its quotient by [max_f].
    The loop visits each key once and rewrites its own value. *)
Fixpoint normalize (word_freq : dict string Z) (max_f : Z)
  : result (dict string F) :=
  match word_freq with
  | [] => Ok []
  | (w, c) :: rest =>
      q <- py_int_truediv c max_f ;;
      rest' <- normalize rest max_f ;;
      Ok ((w, q) :: rest')
  end.

(** Lines 50-58: the inner loop over the tokens of one sentence. *)
Definition score_step (word_freq : dict string F) (st : F * Z)
    (token : Token.t) : F * Z :=
  let '(score, length) := st in
  if Token.is_space token || Token.is_punct token then (score, length)
  else
    let key := PyStr.lower (Token.lemma_ token) in
    let score :=
      match dict_get string_dec word_freq key with
      | Some w => fadd score w
      | None => score
      end in
    (score, length + 1).

Definition score_tokens (word_freq : dict string F) (sent : Span.t)
  : F * Z :=
  fold_left (score_step word_freq) (Span.tokens sent) (of_int 0, 0).

(** Lines 49-61: the body of the outer loop. *)
Definition sentence_step (word_freq : dict string F)
    (sent_scores : dict Span.t F) (sent : Span.t)
  : result (dict Span.t F) :=
  let '(score, length) := score_tokens word_freq sent in
  if length >? 0 then
    score' <- py_float_div_int score length ;;
    Ok (dict_set Span.eq_dec sent_scores sent score')
  else Ok sent_scores.

Definition score_sentences (word_freq : dict string F)
    (sentences : list Span.t) : result (dict Span.t F) :=
  for_each (sentence_step word_freq) sentences [].

(** Lines 63-64, for a product on which [int] is defined
    (see [Full.target_count]). *)
Definition target_count (ratio : F) (min_sentences max_sentences : Z)
    (total : Z) : Z :=
  let K := Z.max min_sentences (trunc (fmul (of_int total) ratio)) in
  Z.min (Z.min K max_sentences) total.

(** Line 66: [nlargest(K, sent_scores, key=sent_scores.get)] walks the
    keys of the dictionary in insertion order and ranks each key by the
    value stored under it, that is, it ranks the entries by their
    second component (see [dict_get_entry]). *)
Definition top_sentences (K : Z) (sent_scores : dict Span.t F)
  : list Span.t :=
  map fst (nlargest flt snd K sent_scores).

(** Line 67. *)
Definition chosen_sentences (K : Z) (sent_scores : dict Span.t F)
  : list Span.t :=
  sorted Z.ltb Span.start (top_sentences K sent_scores).

(** [" ".join([s.text.strip() for s in l])] *)
Definition join_sentences (l : list Span.t) : string :=
  PyStr.join " " (map (fun s => PyStr.strip (Span.text s)) l).

(** Line 17: [not text or not text.strip()]. *)
Definition blank (text : string) : bool :=
  PyStr.falsy text || PyStr.falsy (PyStr.strip text).

Definition summarize_text_spacy (text : string) (nlp : string -> Doc.t)
    (ratio : F) (min_sentences max_sentences : Z) : result string :=
  if blank text then Ok EmptyString
  else
    let doc := nlp text in
    let sentences := Doc.sents doc in
    if match sentences with [] => true | _ => false end
    then Ok (PyStr.strip text)
    else
      let word_freq := count_words (Doc.tokens doc) in
      if dict_falsy word_freq
      then Ok (join_sentences (slice_to sentences min_sentences))
      else
        max_f <- py_max (dict_values word_freq) ;;
        word_freq <- normalize word_freq max_f ;;
        sent_scores <- score_sentences word_freq sentences ;;
        let K := target_count ratio min_sentences max_sentences
                   (Z.of_nat (List.length sentences)) in
        Ok (join_sentences (chosen_sentences K sent_scores)).

(** The same decision sequence, stopped just before the text is
    rendered: either the function returns a string that is not a list
    of sentences (lines 18 and 23), or it joins a list of sentences
    (lines 42 and 69).  [summarize_render] states that this is the same
    function. *)
Inductive summary :=
  | Verbatim (s : string)
  | Sentences (l : list Span.t).

Definition render (r : summary) : string :=
  match r with
  | Verbatim s => s
  | Sentences l => join_sentences l
  end.

(** The sentences the returned string is made of. *)
Definition summary_sentences (r : summary) : list Span.t :=
  match r with
  | Verbatim _ => []
  | Sentences l => l
  end.

(** The number of sentences the returned string is made of. *)
Definition sentence_count (r : summary) : Z :=
  match r with
  | Verbatim _ => 0
  | Sentences l => Z.of_nat (List.length l)
  end.

Definition summary_of (text : string) (nlp : string -> Doc.t)
    (ratio : F) (min_sentences max_sentences : Z) : result summary :=
  if blank text
  then Ok (Verbatim EmptyString)
  else
    let doc := nlp text in
    let sentences := Doc.sents doc in
    if match sentences with [] => true | _ => false end
    then Ok (Verbatim (PyStr.strip text))
    else
      let word_freq := count_words (Doc.tokens doc) in
      if dict_falsy word_freq
      then Ok (Sentences (slice_to sentences min_sentences))
      else
        max_f <- py_max (dict_values word_freq) ;;
        word_freq <- normalize word_freq max_f ;;
        sent_scores <- score_sentences word_freq sentences ;;
        let K := target_count ratio min_sentences max_sentences
                   (Z.of_nat (List.length sentences)) in
        Ok (Sentences (chosen_sentences K sent_scores)).

(** *** Definitions that follow the specification's words *)

(** Section 4.1, filtering: a token counts when it passes all filters. *)
Definition content_token (token : Token.t) : bool :=
  negb (Token.is_space token) && negb (Token.is_punct token)
  && negb (Token.is_stop token)
  && negb (PyStr.in_punct_set (Token.text token))
  && negb (PyStr.falsy (PyStr.lower (Token.lemma_ token)))
  && negb (STOP_WORDS (PyStr.lower (Token.lemma_ token))).

(** Section 4.2, scoring: the tokens that are neither space nor
    punctuation. *)
Definition scored_token (token : Token.t) : bool :=
  negb (Token.is_space token) && negb (Token.is_punct token).

(** The weights of the tokens whose lowercased lemma is in the map, in
    token order; a token whose lemma is absent adds nothing. *)
Definition present_weights (word_freq : dict string F)
    (tokens : list Token.t) : list F :=
  flat_map (fun token =>
              match dict_get string_dec word_freq
                      (PyStr.lower (Token.lemma_ token)) with
              | Some w => [w]
              | None => []
              end) tokens.

(** Salience: the sum of the present weights over the number of scored
    tokens; no value when the sentence has no scored token. *)
Definition salience (word_freq : dict string F) (sent : Span.t)
  : option F :=
  match filter scored_token (Span.tokens sent) with
  | [] => None
  | toks =>
      Some (fdiv (fold_left fadd (present_weights word_freq toks) (of_int 0))
                 (of_int (Z.of_nat (List.length toks))))
  end.

(** A sentence that gets a score. *)
Definition scorable (sent : Span.t) : bool :=
  existsb scored_token (Span.tokens sent).

(** *** Closed forms of the loops, used to state what they compute *)

(** The value of [max(word_freq.values())] on a non-empty counter. *)
Definition max_count (word_freq : dict string Z) : Z :=
  match dict_values word_freq with
  | [] => 0
  | x :: l => fold_left Z.max l x
  end.

(** The weight map after lines 44-46. *)
Definition weights_of (word_freq : dict string Z) : dict string F :=
  map (fun e => (fst e, int_truediv (snd e) (max_count word_freq))) word_freq.

(** One turn of the loop of lines 49-61, with the salience of the
    specification in place of the accumulated quotient. *)
Definition record_score (word_freq : dict string F)
    (sent_scores : dict Span.t F) (sent : Span.t) : dict Span.t F :=
  match salience word_freq sent with
  | Some v => dict_set Span.eq_dec sent_scores sent v
  | None => sent_scores
  end.


End Summarizer.

(* ================================================================== *)
(** ** Sample documents *)

Module Sample.

Definition word (text lemma : string) : Token.t :=
  Token.mk text lemma false false false.
Definition stop (text lemma : string) : Token.t :=
  Token.mk text lemma false false true.
Definition punct (text : string) : Token.t :=
  Token.mk text text false true false.

Definition STOP_WORDS (s : string) : bool :=
  existsb (String.eqb s) ["the"; "be"; "and"; "a"; "in"; "it"].

(** The scenario of the specification, section 8. *)
Definition cats_text : string :=
  "The cat sat. The cat ran fast. Birds fly high in the sky. Cats are great pets and cats sleep a lot.".

Definition cats1 : Span.t :=
  Span.mk 0 [stop "The" "the"; word "cat" "cat"; word "sat" "sit"; punct "."]
    "The cat sat.".
Definition cats2 : Span.t :=
  Span.mk 4 [stop "The" "the"; word "cat" "cat"; word "ran" "run";
             word "fast" "fast"; punct "."]
    "The cat ran fast.".
Definition cats3 : Span.t :=
  Span.mk 9 [word "Birds" "bird"; word "fly" "fly"; word "high" "high";
             stop "in" "in"; stop "the" "the"; word "sky" "sky"; punct "."]
    "Birds fly high in the sky.".
Definition cats4 : Span.t :=
  Span.mk 16 [word "Cats" "cat"; stop "are" "be"; word "great" "great";
              word "pets" "pet"; stop "and" "and"; word "cats" "cat";
              word "sleep" "sleep"; stop "a" "a"; word "lot" "lot"; punct "."]
    "Cats are great pets and cats sleep a lot.".

Definition cats_sents : list Span.t := [cats1; cats2; cats3; cats4].

Definition cats_doc : Doc.t :=
  Doc.mk (flat_map Span.tokens cats_sents) cats_sents.

Definition cats_nlp (text : string) : Doc.t := cats_doc.





(** A document without content words. *)
Definition itis : Span.t :=
  Span.mk 0 [stop "It" "it"; stop "is" "be"; punct "."] "It is.".
Definition itis_text : string := "It is.".
Definition itis_doc : Doc.t := Doc.mk (Span.tokens itis) [itis].
Definition itis_nlp (text : string) : Doc.t := itis_doc.

(** A second pipeline that agrees with [cats_nlp] on [cats_text] only. *)
Definition cats_nlp' (text : string) : Doc.t :=
  if String.eqb text cats_text then cats_doc else Doc.mk [] [].

End Sample.

(* ================================================================== *)
(** ** Counting, in the words of section 4.1 *)

(** The number of tokens that pass the filters and whose lowercased
    lemma is [key]. *)
Definition lemma_count (STOP_WORDS : string -> bool) (key : string)
    (tokens : list Token.t) : Z :=
  Z.of_nat
    (List.length
       (filter (fun token =>
                  content_token STOP_WORDS token
                  && String.eqb (PyStr.lower (Token.lemma_ token)) key)
          tokens)).

(* ================================================================== *)
(** ** The front end (lines 85-121)

    One run of the Streamlit script is a function of the state of its
    widgets.  The widgets themselves, the page layout and the texts of
    the labels are left out; what is kept is what the script computes:
    the input text (pasted, or read from the uploaded file according to
    the extension of its name) and what the button handler displays.
    The three file readers are external: an upload carries its name and
    what each reader returns on its content. *)

Module App.

(** [s.split(sep)] for a one-character separator. *)
Fixpoint split_on (sep : ascii) (s : string) : list string :=
  match s with
  | EmptyString => [EmptyString]
  | String c s' =>
      if Ascii.eqb c sep then EmptyString :: split_on sep s'
      else match split_on sep s' with
           | [] => [String c EmptyString]
           | h :: t => String c h :: t
           end
  end.

(** [c in s] for a character [c]. *)
Fixpoint has_char (c : ascii) (s : string) : bool :=
  match s with
  | EmptyString => false
  | String c' s' => Ascii.eqb c' c || has_char c s'
  end.

(** Line 100: [name.split(".")[-1].lower()]. *)
Definition file_extension (name : string) : string :=
  PyStr.lower (last (split_on "."%char name) EmptyString).

(** Line 106: ["\n".join(page.extract_text() or "" for page in pdf.pages)];
    [extract_text] returns a string or [None]. *)
Definition pdf_text (pages : list (option string)) : string :=
  PyStr.join (String "010"%char EmptyString)
    (map (fun page =>
            match page with
            | Some t => if PyStr.falsy t then EmptyString else t
            | None => EmptyString
            end) pages).

(** Line 110: ["\n".join(p.text for p in doc.paragraphs)]. *)
Definition docx_text (paragraphs : list string) : string :=
  PyStr.join (String "010"%char EmptyString) paragraphs.

Record upload := mk_upload {
  name : string;
  decoded : string;                 (* read().decode("utf-8") *)
  pages : list (option string);     (* extract_text() of each PDF page *)
  paragraphs : list string          (* the text of each DOCX paragraph *)
}.

(** Lines 99-110. *)
Definition read_upload (uploaded_file : upload) : string :=
  let ext := file_extension (name uploaded_file) in
  if String.eqb ext "txt" then decoded uploaded_file
  else if String.eqb ext "pdf" then pdf_text (pages uploaded_file)
  else if String.eqb ext "docx" then docx_text (paragraphs uploaded_file)
  else EmptyString.

Inductive input_method :=
| PasteText (area : string)
| UploadFile (uploaded_file : option upload).

(** Lines 94-110. *)
Definition input_text_of (method : input_method) : string :=
  match method with
  | PasteText area => area
  | UploadFile None => EmptyString
  | UploadFile (Some uploaded_file) => read_upload uploaded_file
  end.

Inductive heading := OriginalText | GeneratedSummary.

(** What the button handler displays. *)
Inductive shown :=
| Subheader (h : heading)
| Write (text : string)
| Success (summary : string)
| Warning.

Section Run.
Context {F : Type} `{PyFloat F}.
Variable STOP_WORDS : string -> bool.

(** Lines 114-121. *)
Definition on_generate (nlp : string -> Doc.t) (ratio : F)
    (min_sents max_sents : Z) (input_text : string) : result (list shown) :=
  if negb (PyStr.falsy (PyStr.strip input_text)) then
    summary <- summarize_text_spacy STOP_WORDS input_text nlp ratio
                 min_sents max_sents ;;
    Ok [Subheader OriginalText; Write input_text;
        Subheader GeneratedSummary; Success summary]
  else Ok [Warning].

(** Lines 91-121: one run of the script. *)
Definition run (nlp : string -> Doc.t) (ratio : F) (min_sents max_sents : Z)
    (method : input_method) (button : bool) : result (list shown) :=
  let input_text := input_text_of method in
  if button then on_generate nlp ratio min_sents max_sents input_text
  else Ok [].

End Run.

End App.

(* ================================================================== *)
(** ** More sample data *)

Module Sample2.

(** A scanned PDF: no page has extractable text. *)
Definition scan : App.upload :=
  App.mk_upload "Scan.PDF" EmptyString [None; Some EmptyString; None] [].

(** A text file whose content is the scenario of section 8. *)
Definition notes : App.upload :=
  App.mk_upload "notes.v2.TXT" Sample.cats_text [] [].

(** A pipeline that finds no sentence. *)
Definition silent_nlp (text : string) : Doc.t := Doc.mk [] [].

(** A text of white space only: two spaces and a line feed. *)
Definition blank_text : string :=
  String " "%char (String " "%char (String "010"%char EmptyString)).

End Sample2.

(* ================================================================== *)
(** ** Line 63 and the file readers, with their failures *)

(** What [int()] looks at: whether its argument is NaN or infinite. *)
Class PyFloatSpecial (F : Type) := {
  is_nan : F -> bool;            (* math.isnan(x) *)
  is_inf : F -> bool             (* math.isinf(x) *)
}.

(** A rational is neither. *)
#[export] Instance Q_special : PyFloatSpecial Q := {
  is_nan := fun _ => false;
  is_inf := fun _ => false
}.

Module Full.

Section Summarizer.
Context {F : Type} `{PyFloat F} `{PyFloatSpecial F}.
Variable STOP_WORDS : string -> bool.

(** [int(x)] for a float [x]: [ValueError] on NaN, [OverflowError] on an
    infinity, the truncation otherwise. *)
Definition py_int (x : F) : result Z :=
  if is_nan x then Raise ValueError
  else if is_inf x then Raise OverflowError
  else Ok (trunc x).

(** Lines 63-64. *)
Definition target_count (ratio : F) (min_sentences max_sentences : Z)
    (total : Z) : result Z :=
  n <- py_int (fmul (of_int total) ratio) ;;
  let K := Z.max min_sentences n in
  Ok (Z.min (Z.min K max_sentences) total).

Definition summarize_text_spacy (text : string) (nlp : string -> Doc.t)
    (ratio : F) (min_sentences max_sentences : Z) : result string :=
  if blank text then Ok EmptyString
  else
    let doc := nlp text in
    let sentences := Doc.sents doc in
    if match sentences with [] => true | _ => false end
    then Ok (PyStr.strip text)
    else
      let word_freq := count_words STOP_WORDS (Doc.tokens doc) in
      if dict_falsy word_freq
      then Ok (join_sentences (slice_to sentences min_sentences))
      else
        max_f <- py_max (dict_values word_freq) ;;
        word_freq <- normalize word_freq max_f ;;
        sent_scores <- score_sentences word_freq sentences ;;
        K <- target_count ratio min_sentences max_sentences
               (Z.of_nat (List.length sentences)) ;;
        Ok (join_sentences (chosen_sentences K sent_scores)).

(** The same, stopped before the text is rendered (see [summary_of]). *)
Definition summary_of (text : string) (nlp : string -> Doc.t)
    (ratio : F) (min_sentences max_sentences : Z) : result summary :=
  if blank text then Ok (Verbatim EmptyString)
  else
    let doc := nlp text in
    let sentences := Doc.sents doc in
    if match sentences with [] => true | _ => false end
    then Ok (Verbatim (PyStr.strip text))
    else
      let word_freq := count_words STOP_WORDS (Doc.tokens doc) in
      if dict_falsy word_freq
      then Ok (Sentences (slice_to sentences min_sentences))
      else
        max_f <- py_max (dict_values word_freq) ;;
        word_freq <- normalize word_freq max_f ;;
        sent_scores <- score_sentences word_freq sentences ;;
        K <- target_count ratio min_sentences max_sentences
               (Z.of_nat (List.length sentences)) ;;
        Ok (Sentences (chosen_sentences K sent_scores)).

(** The run gets as far as line 63: the text is not blank, the document
    has a sentence and the counter is not empty. *)
Definition reaches_int (text : string) (nlp : string -> Doc.t) : bool :=
  negb (blank text)
  && negb (match Doc.sents (nlp text) with [] => true | _ => false end)
  && negb (dict_falsy (count_words STOP_WORDS (Doc.tokens (nlp text)))).

(** The argument of [int()] at line 63. *)
Definition int_argument (text : string) (nlp : string -> Doc.t) (ratio : F)
  : F :=
  fmul (of_int (Z.of_nat (List.length (Doc.sents (nlp text))))) ratio.

End Summarizer.

(** An uploaded file: its name and what each reader gives on its
    content, a value or the exception it raises. *)
Record upload := mk_upload {
  name : string;
  decoded : result string;                (* read().decode("utf-8") *)
  pages : result (list (option string));  (* pdfplumber: each page's text *)
  paragraphs : result (list string)       (* python-docx: each paragraph *)
}.

(** Lines 99-110. *)
Definition read_upload (uploaded_file : upload) : result string :=
  let ext := App.file_extension (name uploaded_file) in
  if String.eqb ext "txt" then decoded uploaded_file
  else if String.eqb ext "pdf" then
    page_texts <- pages uploaded_file ;; Ok (App.pdf_text page_texts)
  else if String.eqb ext "docx" then
    texts <- paragraphs uploaded_file ;; Ok (App.docx_text texts)
  else Ok EmptyString.

Inductive input_method :=
| PasteText (area : string)
| UploadFile (uploaded_file : option upload).

(** Lines 94-110. *)
Definition input_text_of (method : input_method) : result string :=
  match method with
  | PasteText area => Ok area
  | UploadFile None => Ok EmptyString
  | UploadFile (Some uploaded_file) => read_upload uploaded_file
  end.

Section Run.
Context {F : Type} `{PyFloat F} `{PyFloatSpecial F}.
Variable STOP_WORDS : string -> bool.

(** Lines 114-121. *)
Definition on_generate (nlp : string -> Doc.t) (ratio : F)
    (min_sents max_sents : Z) (input_text : string)
  : result (list App.shown) :=
  if negb (PyStr.falsy (PyStr.strip input_text)) then
    summary <- summarize_text_spacy STOP_WORDS input_text nlp ratio
                 min_sents max_sents ;;
    Ok [App.Subheader App.OriginalText; App.Write input_text;
        App.Subheader App.GeneratedSummary; App.Success summary]
  else Ok [App.Warning].

(** Lines 91-121: one run of the script.  The input text is read before
    the button is looked at. *)
Definition run (nlp : string -> Doc.t) (ratio : F) (min_sents max_sents : Z)
    (method : input_method) (button : bool) : result (list App.shown) :=
  input_text <- input_text_of method ;;
  if button then on_generate nlp ratio min_sents max_sents input_text
  else Ok [].

End Run.

End Full.

(* ================================================================== *)
(** ** Exact arithmetic with the infinities and NaN

    The rationals extended with the three special values of a float, with
    the IEEE 754 rules for them and no rounding.  It serves to run the
    branches of [Full.py_int] that raise. *)

Module Extended.

Inductive t :=
| Finite (q : Q)
| PosInf
| NegInf
| NaN.

Definition add (x y : t) : t :=
  match x, y with
  | NaN, _ | _, NaN => NaN
  | PosInf, NegInf | NegInf, PosInf => NaN
  | PosInf, _ | _, PosInf => PosInf
  | NegInf, _ | _, NegInf => NegInf
  | Finite a, Finite b => Finite (a + b)
  end.

(** An infinity of the given sign times a finite number. *)
Definition inf_times (positive : bool) (q : Q) : t :=
  match Qnum q with
  | Z0 => NaN
  | Zpos _ => if positive then PosInf else NegInf
  | Zneg _ => if positive then NegInf else PosInf
  end.

Definition mul (x y : t) : t :=
  match x, y with
  | NaN, _ | _, NaN => NaN
  | Finite a, Finite b => Finite (a * b)
  | PosInf, Finite q | Finite q, PosInf => inf_times true q
  | NegInf, Finite q | Finite q, NegInf => inf_times false q
  | PosInf, PosInf | NegInf, NegInf => PosInf
  | PosInf, NegInf | NegInf, PosInf => NegInf
  end.

(** [x / y]; the code never divides by zero. *)
Definition div (x y : t) : t :=
  match x, y with
  | NaN, _ | _, NaN => NaN
  | Finite a, Finite b => Finite (a / b)
  | Finite _, _ => Finite 0
  | PosInf, Finite q => if Qnum q <? 0 then NegInf else PosInf
  | NegInf, Finite q => if Qnum q <? 0 then PosInf else NegInf
  | _, _ => NaN
  end.

Definition lt (x y : t) : bool :=
  match x, y with
  | NaN, _ | _, NaN => false
  | Finite a, Finite b => Qltb a b
  | _, NegInf | PosInf, _ => false
  | NegInf, _ | _, PosInf => true
  end.

Definition to_int (x : t) : Z :=
  match x with
  | Finite q => Qtrunc q
  | _ => 0
  end.

#[global] Instance float : PyFloat t := {
  of_int := fun n => Finite (inject_Z n);
  fadd := add;
  fmul := mul;
  fdiv := div;
  int_truediv := fun a b => Finite (inject_Z a / inject_Z b);
  flt := lt;
  trunc := to_int
}.

#[global] Instance special : PyFloatSpecial t := {
  is_nan := fun x => match x with NaN => true | _ => false end;
  is_inf := fun x => match x with PosInf | NegInf => true | _ => false end
}.

End Extended.

Module Sample3.

(** A text file that is not valid UTF-8. *)
Definition latin1 : Full.upload :=
  Full.mk_upload "cv.txt" (Raise UnicodeDecodeError) (Raise LibraryError)
    (Raise LibraryError).

(** A text file whose content is the scenario of section 8. *)
Definition notes : Full.upload :=
  Full.mk_upload "notes.TXT" (Ok Sample.cats_text) (Raise LibraryError)
    (Raise LibraryError).

End Sample3.

(* ================================================================== *)
(** * Facts about the building blocks *)

(** ** Lists *)

Lemma before_cons {A} (a x y : A) l : before x y l -> before x y (a :: l).
Proof.
  intros (l1 & l2 & l3 & ->). exists (a :: l1), l2, l3. reflexivity.
Qed.

Lemma before_head {A} (x y : A) l : In y l -> before x y (x :: l).
Proof.
  intros Hy. apply in_split in Hy as (l2 & l3 & ->).
  exists [], l2, l3. reflexivity.
Qed.

Lemma before_inv {A} (a x y : A) l :
  before x y (a :: l) -> (a = x /\ In y l) \/ before x y l.
Proof.
  intros (l1 & l2 & l3 & E). destruct l1 as [|b l1]; simpl in E.
  - injection E as -> ->. left. split; [reflexivity|].
    apply in_or_app. right. left. reflexivity.
  - injection E as -> ->. right. exists l1, l2, l3. reflexivity.
Qed.

Lemma before_In_r {A} (x y : A) l : before x y l -> In y l.
Proof.
  intros (l1 & l2 & l3 & ->). apply in_or_app. right. right.
  apply in_or_app. right. left. reflexivity.
Qed.

Lemma NoDup_firstn {A} (n : nat) (l : list A) : NoDup l -> NoDup (firstn n l).
Proof.
  intros Hl. revert n. induction Hl as [|x l Hx Hl IH]; intros [|n]; simpl;
    try constructor.
  - intros Hin. apply Hx. rewrite <- (firstn_skipn n l).
    apply in_or_app. left. exact Hin.
  - apply IH.
Qed.

Lemma firstn_In {A} (n : nat) (x : A) l : In x (firstn n l) -> In x l.
Proof.
  intros Hin. rewrite <- (firstn_skipn n l). apply in_or_app. left. exact Hin.
Qed.

(** In a list without repetition, a prefix that reaches [y] holds every
    element that stands before [y]. *)
Lemma before_firstn {A} (n : nat) (x y : A) l :
  NoDup l -> before x y l -> In y (firstn n l) -> In x (firstn n l).
Proof.
  intros Hnd (l1 & l2 & l3 & ->) Hy.
  rewrite firstn_app in *. apply in_app_or in Hy as [Hy | Hy].
  - exfalso. apply firstn_In in Hy.
    replace (l1 ++ x :: l2 ++ y :: l3) with ((l1 ++ x :: l2) ++ y :: l3)
      in Hnd by (rewrite <- app_assoc; reflexivity).
    apply NoDup_remove_2 in Hnd. apply Hnd.
    apply in_or_app. left. apply in_or_app. left. exact Hy.
  - apply in_or_app. right.
    destruct (n - List.length l1)%nat as [|m]; simpl in *; [contradiction|].
    left. reflexivity.
Qed.

Lemma subseq_refl {A} (l : list A) : subseq l l.
Proof. induction l; constructor; assumption. Qed.



(** ** Sorting *)

Section SortingFacts.
Context {A K : Type} (lt : K -> K -> bool) (key : A -> K).

Lemma insert_desc_perm x l : Permutation (x :: l) (insert_desc lt key x l).
Proof.
  induction l as [|y l IH]; simpl; [reflexivity|].
  destruct (lt (key x) (key y)); [|reflexivity].
  rewrite perm_swap. apply perm_skip, IH.
Qed.

Lemma sorted_reverse_perm l : Permutation l (sorted_reverse lt key l).
Proof.
  induction l as [|x l IH]; simpl; [reflexivity|].
  rewrite <- insert_desc_perm. apply perm_skip, IH.
Qed.

Lemma insert_asc_perm x l : Permutation (x :: l) (insert_asc lt key x l).
Proof.
  induction l as [|y l IH]; simpl; [reflexivity|].
  destruct (lt (key y) (key x)); [|reflexivity].
  rewrite perm_swap. apply perm_skip, IH.
Qed.

Lemma sorted_perm l : Permutation l (sorted lt key l).
Proof.
  induction l as [|x l IH]; simpl; [reflexivity|].
  rewrite <- insert_asc_perm. apply perm_skip, IH.
Qed.

Lemma sorted_length l : List.length (sorted lt key l) = List.length l.
Proof. symmetry. apply Permutation_length, sorted_perm. Qed.

Lemma sorted_single x : sorted lt key [x] = [x].
Proof. reflexivity. Qed.

(** Stability of the descending sort, step by step. *)
Lemma insert_desc_keeps a x y l :
  before x y l -> before x y (insert_desc lt key a l).
Proof.
  induction l as [|b l IH]; simpl; intros Hb.
  - destruct Hb as (l1 & l2 & l3 & E). destruct l1; discriminate.
  - destruct (lt (key a) (key b)); [|apply before_cons, Hb].
    apply before_inv in Hb as [[-> Hy] | Hb].
    + apply before_head.
      apply (Permutation_in _ (insert_desc_perm a l)). right. exact Hy.
    + apply before_cons, IH, Hb.
Qed.

Lemma insert_desc_front x y l :
  In y l -> lt (key x) (key y) = false ->
  before x y (insert_desc lt key x l).
Proof.
  induction l as [|b l IH]; simpl; intros Hy Hxy; [contradiction|].
  destruct (lt (key x) (key b)) eqn:Hxb.
  - destruct Hy as [-> | Hy]; [congruence|].
    apply before_cons, IH; assumption.
  - apply before_head. exact Hy.
Qed.

(** [sorted(..., reverse=True)] never moves an element in front of an
    earlier one whose key is not smaller. *)
Lemma sorted_reverse_stable x y l :
  before x y l -> lt (key x) (key y) = false ->
  before x y (sorted_reverse lt key l).
Proof.
  induction l as [|a l IH]; intros Hb Hxy.
  - destruct Hb as (l1 & l2 & l3 & E). destruct l1; discriminate.
  - simpl. apply before_inv in Hb as [[-> Hy] | Hb].
    + apply insert_desc_front; [|exact Hxy].
      apply (Permutation_in _ (sorted_reverse_perm l)), Hy.
    + apply insert_desc_keeps, IH; assumption.
Qed.

Lemma nlargest_length n l :
  List.length (nlargest lt key n l)
  = Z.to_nat (Z.min n (Z.of_nat (List.length l))).
Proof.
  unfold nlargest. destruct (Z.leb_spec n 0) as [Hn | Hn]; simpl.
  - lia.
  - rewrite length_firstn, <- (Permutation_length (sorted_reverse_perm l)).
    lia.
Qed.

Lemma nlargest_In n l x : In x (nlargest lt key n l) -> In x l.
Proof.
  unfold nlargest. destruct (n <=? 0); simpl; [contradiction|].
  intros Hin. apply firstn_In in Hin.
  apply (Permutation_in _ (Permutation_sym (sorted_reverse_perm l))), Hin.
Qed.

Lemma nlargest_NoDup n l : NoDup l -> NoDup (nlargest lt key n l).
Proof.
  intros Hl. unfold nlargest. destruct (n <=? 0); [constructor|].
  apply NoDup_firstn, (Permutation_NoDup (sorted_reverse_perm l)), Hl.
Qed.

(** Ties are broken by encountering order: when [y] is among the [n]
    largest, so is every earlier element whose key is not smaller. *)
Lemma nlargest_stable n l x y :
  NoDup l -> before x y l -> lt (key x) (key y) = false ->
  In y (nlargest lt key n l) -> In x (nlargest lt key n l).
Proof.
  intros Hl Hb Hxy. unfold nlargest.
  destruct (n <=? 0); [intros []|].
  apply before_firstn.
  - apply (Permutation_NoDup (sorted_reverse_perm l)), Hl.
  - apply sorted_reverse_stable; assumption.
Qed.

End SortingFacts.

Section PositionSort.
Context {A : Type} (pos : A -> Z).

(** Ascending and strictly ascending order of position. *)
Local Abbreviation le_pos := (fun a b : A => pos a <= pos b).
Local Abbreviation lt_pos := (fun a b : A => pos a < pos b).





End PositionSort.

(** ** Dictionaries *)

Section DictFacts.
Context {K V : Type} (eq_dec : forall a b : K, {a = b} + {a <> b}).
Implicit Types (d : dict K V) (k : K) (v : V).

Lemma dict_get_set_same d k v : dict_get eq_dec (dict_set eq_dec d k v) k = Some v.
Proof.
  induction d as [|[k' v'] d IH]; simpl.
  - destruct (eq_dec k k); congruence.
  - destruct (eq_dec k k') as [E | E]; simpl;
      destruct (eq_dec k k'); congruence.
Qed.

Lemma dict_get_set_other d k v k' :
  k' <> k ->
  dict_get eq_dec (dict_set eq_dec d k v) k' = dict_get eq_dec d k'.
Proof.
  intros Hne. induction d as [|[k0 v0] d IH]; simpl.
  - destruct (eq_dec k' k); congruence.
  - destruct (eq_dec k k0) as [E | E]; simpl.
    + subst k0. destruct (eq_dec k' k); congruence.
    + destruct (eq_dec k' k0); [reflexivity | exact IH].
Qed.

Lemma dict_get_None d k : dict_get eq_dec d k = None <-> ~ In k (dict_keys d).
Proof.
  induction d as [|[k' v'] d IH]; simpl.
  - tauto.
  - destruct (eq_dec k k') as [E | E].
    + split; [discriminate | intros Hn; exfalso; apply Hn; left; congruence].
    + rewrite IH. split; [intros Hn [E' | Hin]; [congruence | tauto] | tauto].
Qed.


Lemma dict_set_keys_In d k v k' :
  In k' (dict_keys (dict_set eq_dec d k v)) <-> k' = k \/ In k' (dict_keys d).
Proof.
  induction d as [|[k0 v0] d IH]; simpl.
  - intuition congruence.
  - destruct (eq_dec k k0) as [E | E]; simpl.
    + subst k0. intuition congruence.
    + rewrite IH. intuition congruence.
Qed.

(** The keys of a dictionary stay pairwise distinct. *)
Lemma dict_set_NoDup d k v :
  NoDup (dict_keys d) -> NoDup (dict_keys (dict_set eq_dec d k v)).
Proof.
  induction d as [|[k0 v0] d IH]; simpl; intros Hnd.
  - constructor; [intros [] | constructor].
  - apply NoDup_cons_iff in Hnd as [Hk0 Hnd].
    destruct (eq_dec k k0) as [E | E]; simpl.
    + constructor; assumption.
    + constructor; [|apply IH, Hnd].
      intros Hin. apply dict_set_keys_In in Hin as [-> | Hin]; tauto.
Qed.

(** Looking a key up returns the value of its entry: ranking the keys
    by [d.get] is ranking the entries by their value. *)
Lemma dict_get_entry d k v :
  NoDup (dict_keys d) -> In (k, v) d -> dict_get eq_dec d k = Some v.
Proof.
  induction d as [|[k0 v0] d IH]; simpl; intros Hnd Hin; [contradiction|].
  apply NoDup_cons_iff in Hnd as [Hk0 Hnd].
  destruct Hin as [E | Hin].
  - injection E as -> ->. destruct (eq_dec k k); congruence.
  - destruct (eq_dec k k0) as [-> | E]; [|apply IH; assumption].
    exfalso. apply Hk0. apply (in_map fst) in Hin. exact Hin.
Qed.

Lemma dict_entries_NoDup d : NoDup (dict_keys d) -> NoDup d.
Proof.
  induction d as [|[k0 v0] d IH]; simpl; intros Hnd; [constructor|].
  apply NoDup_cons_iff in Hnd as [Hk0 Hnd].
  constructor; [|apply IH, Hnd].
  intros Hin. apply Hk0. apply (in_map fst) in Hin. exact Hin.
Qed.

Lemma dict_set_Forall (P : V -> Prop) d k v :
  Forall (fun e => P (snd e)) d -> P v ->
  Forall (fun e => P (snd e)) (dict_set eq_dec d k v).
Proof.
  induction 1 as [|[k0 v0] d Hv0 Hd IH]; simpl; intros Hv.
  - constructor; [exact Hv | constructor].
  - destruct (eq_dec k k0); constructor; auto.
Qed.

Lemma dict_get_Forall (P : V -> Prop) d k v :
  Forall (fun e => P (snd e)) d -> dict_get eq_dec d k = Some v -> P v.
Proof.
  induction 1 as [|[k0 v0] d Hv0 Hd IH]; simpl; [discriminate|].
  destruct (eq_dec k k0); [intros [= <-]; exact Hv0 | exact IH].
Qed.

Lemma dict_set_not_nil d k v : dict_set eq_dec d k v <> [].
Proof.
  destruct d as [|[k0 v0] d]; simpl; [discriminate|].
  destruct (eq_dec k k0); discriminate.
Qed.
End DictFacts.

(* ================================================================== *)
(** * Facts about the summarizer *)

Section SummarizerFacts.
Context {F : Type} `{PyFloat F}.
Variable STOP_WORDS : string -> bool.

(** ** The counter *)

Lemma count_step_spec word_freq token :
  count_step STOP_WORDS word_freq token
  = if content_token STOP_WORDS token
    then dict_set string_dec word_freq (PyStr.lower (Token.lemma_ token))
           (dict_get_default string_dec word_freq
              (PyStr.lower (Token.lemma_ token)) 0 + 1)
    else word_freq.
Proof.
  unfold count_step, content_token.
  destruct (Token.is_space token), (Token.is_punct token),
    (Token.is_stop token), (PyStr.in_punct_set (Token.text token)),
    (PyStr.falsy (PyStr.lower (Token.lemma_ token))),
    (STOP_WORDS (PyStr.lower (Token.lemma_ token))); reflexivity.
Qed.

Lemma count_fold_positive tokens : forall word_freq,
  Forall (fun e => 1 <= snd e) word_freq ->
  Forall (fun e => 1 <= snd e) (fold_left (count_step STOP_WORDS) tokens word_freq).
Proof.
  induction tokens as [|token tokens IH]; simpl; intros d Hd; [exact Hd|].
  apply IH. rewrite count_step_spec.
  destruct (content_token STOP_WORDS token); [|exact Hd].
  apply dict_set_Forall with (P := fun v => 1 <= v); [exact Hd|].
  unfold dict_get_default.
  destruct (dict_get string_dec d _) as [v|] eqn:E; [|lia].
  assert (1 <= v)
    by (eapply (@dict_get_Forall _ _ string_dec (fun v => 1 <= v));
        eassumption).
  lia.
Qed.

(** Every counter is at least 1. *)
Lemma count_words_positive tokens :
  Forall (fun e => 1 <= snd e) (count_words STOP_WORDS tokens).
Proof. apply count_fold_positive. constructor. Qed.

Lemma count_fold_not_nil tokens : forall word_freq,
  word_freq <> [] -> fold_left (count_step STOP_WORDS) tokens word_freq <> [].
Proof.
  induction tokens as [|token tokens IH]; simpl; intros d Hd; [exact Hd|].
  apply IH. rewrite count_step_spec.
  destruct (content_token STOP_WORDS token); [apply dict_set_not_nil | exact Hd].
Qed.

(** The counter is empty exactly when no token passes the filters. *)
Lemma count_words_nil tokens :
  count_words STOP_WORDS tokens = []
  <-> existsb (content_token STOP_WORDS) tokens = false.
Proof.
  unfold count_words. induction tokens as [|token tokens IH]; simpl.
  - tauto.
  - rewrite count_step_spec.
    destruct (content_token STOP_WORDS token); simpl; [|exact IH].
    split; [|discriminate].
    intros E. exfalso. revert E. apply count_fold_not_nil. discriminate.
Qed.

(** ** The maximum *)

Lemma fold_max_spec l : forall x,
  In (fold_left Z.max l x) (x :: l)
  /\ Forall (fun z => z <= fold_left Z.max l x) (x :: l).
Proof.
  induction l as [|y l IH]; intros x; simpl.
  - split; [left; reflexivity | constructor; [lia | constructor]].
  - destruct (IH (Z.max x y)) as [Hin Hall].
    apply Forall_cons_iff in Hall as [Hm Hall]. split.
    + destruct Hin as [E | Hin]; [|right; right; exact Hin].
      rewrite <- E. destruct (Z.max_spec x y) as [[_ ->] | [_ ->]]; auto.
    + constructor; [lia|]. constructor; [lia | exact Hall].
Qed.

Lemma py_max_values (word_freq : dict string Z) :
  word_freq <> [] ->
  py_max (dict_values word_freq) = Ok (max_count word_freq).
Proof.
  unfold max_count. destruct word_freq as [|e d]; [congruence|].
  reflexivity.
Qed.

Lemma max_count_attained (word_freq : dict string Z) :
  word_freq <> [] ->
  exists w, In (w, max_count word_freq) word_freq.
Proof.
  unfold max_count. destruct word_freq as [|[w c] d]; [congruence|]. intros _.
  simpl. destruct (fold_max_spec (dict_values d) c) as [Hin _].
  destruct Hin as [E | Hin].
  - exists w. left. congruence.
  - apply in_map_iff in Hin as ([w' c'] & E & Hin). simpl in E. subst c'.
    exists w'. right. exact Hin.
Qed.

Lemma max_count_bound (word_freq : dict string Z) w c :
  In (w, c) word_freq -> c <= max_count word_freq.
Proof.
  unfold max_count. destruct word_freq as [|[w0 c0] d]; [intros []|].
  simpl. intros Hin.
  destruct (fold_max_spec (dict_values d) c0) as [_ Hall].
  rewrite Forall_forall in Hall. apply Hall.
  destruct Hin as [E | Hin]; [left; congruence | right].
  apply (in_map snd) in Hin. exact Hin.
Qed.

Lemma max_count_positive tokens :
  count_words STOP_WORDS tokens <> [] ->
  1 <= max_count (count_words STOP_WORDS tokens).
Proof.
  intros Hne. destruct (max_count_attained Hne) as [w Hin].
  pose proof (count_words_positive tokens) as Hpos.
  rewrite Forall_forall in Hpos. apply (Hpos _ Hin).
Qed.

(** ** Normalization *)

Lemma normalize_nonzero (word_freq : dict string Z) max_f :
    max_f <> 0 ->
    normalize word_freq max_f
    = Ok (map (fun e => (fst e, int_truediv (snd e) max_f)) word_freq).
Proof.
    intros Hm. induction word_freq as [|[w c] d IH]; simpl; [reflexivity|].
    unfold py_int_truediv. destruct (Z.eqb_spec max_f 0); [contradiction|].
    simpl. rewrite IH. reflexivity.
Qed.
(** ** Scoring *)

Lemma score_step_spec (word_freq : dict string F) score length token :
  score_step word_freq (score, length) token
  = if scored_token token
    then (match dict_get string_dec word_freq
                  (PyStr.lower (Token.lemma_ token)) with
          | Some w => fadd score w
          | None => score
          end, length + 1)
    else (score, length).
Proof.
  unfold score_step, scored_token.
  destruct (Token.is_space token), (Token.is_punct token); reflexivity.
Qed.

Lemma score_fold_spec (word_freq : dict string F) tokens : forall score length,
  fold_left (score_step word_freq) tokens (score, length)
  = (fold_left fadd
       (present_weights word_freq (filter scored_token tokens)) score,
     length + Z.of_nat (List.length (filter scored_token tokens))).
Proof.
  induction tokens as [|token tokens IH]; intros score length.
  - simpl. f_equal. lia.
  - cbn [fold_left filter]. rewrite score_step_spec.
    destruct (scored_token token); rewrite IH; [|reflexivity].
    unfold present_weights. cbn [flat_map List.length].
    destruct (dict_get string_dec word_freq (PyStr.lower (Token.lemma_ token)));
      cbn [app fold_left]; f_equal; lia.
Qed.

Lemma scorable_salience (word_freq : dict string F) sent :
  scorable sent = true <-> salience word_freq sent <> None.
Proof.
  unfold scorable, salience.
  destruct (filter scored_token (Span.tokens sent)) as [|t l] eqn:E.
  - split; [|congruence]. intros Hex. exfalso.
    apply existsb_exists in Hex as (t & Hin & Ht).
    assert (Hf : In t (filter scored_token (Span.tokens sent)))
      by (apply filter_In; split; assumption).
    rewrite E in Hf. exact Hf.
  - split; [discriminate|]. intros _. apply existsb_exists. exists t.
    apply filter_In. rewrite E. left. reflexivity.
Qed.

(** The body of the scoring loop never raises, and records the salience. *)
Lemma sentence_step_spec (word_freq : dict string F) sent_scores sent :
  sentence_step word_freq sent_scores sent
  = Ok (record_score word_freq sent_scores sent).
Proof.
  unfold sentence_step, record_score, score_tokens, salience.
  rewrite score_fold_spec. simpl.
  destruct (filter scored_token (Span.tokens sent)) as [|t l]; [reflexivity|].
  set (toks := t :: l).
  assert (Hpos : 0 < Z.of_nat (List.length toks)) by (simpl; lia).
  destruct (Z.gtb_spec (Z.of_nat (List.length toks)) 0) as [_ | Hle]; [|lia].
  unfold py_float_div_int.
  destruct (Z.eqb_spec (Z.of_nat (List.length toks)) 0) as [E | _]; [lia|].
  reflexivity.
Qed.

Lemma score_loop_spec (word_freq : dict string F) sentences : forall sent_scores,
  for_each (sentence_step word_freq) sentences sent_scores
  = Ok (fold_left (record_score word_freq) sentences sent_scores).
Proof.
  induction sentences as [|sent sentences IH]; intros d; simpl; [reflexivity|].
  rewrite sentence_step_spec. simpl. apply IH.
Qed.

Lemma score_sentences_spec (word_freq : dict string F) sentences :
  score_sentences word_freq sentences
  = Ok (fold_left (record_score word_freq) sentences []).
Proof. apply score_loop_spec. Qed.

Lemma record_score_NoDup (word_freq : dict string F) sentences :
  forall sent_scores,
  NoDup (dict_keys sent_scores) ->
  NoDup (dict_keys (fold_left (record_score word_freq) sentences sent_scores)).
Proof.
  induction sentences as [|sent sentences IH]; intros d Hd; simpl; [exact Hd|].
  apply IH. unfold record_score.
  destruct (salience word_freq sent); [apply dict_set_NoDup|]; exact Hd.
Qed.


(** What the score map holds for a key after the loop. *)
Lemma record_score_get (word_freq : dict string F) sentences :
  forall sent_scores s,
  dict_get Span.eq_dec
    (fold_left (record_score word_freq) sentences sent_scores) s
  = match (if in_dec Span.eq_dec s sentences
           then salience word_freq s else None) with
    | Some v => Some v
    | None => dict_get Span.eq_dec sent_scores s
    end.
Proof.
  induction sentences as [|sent sentences IH]; intros d s; [reflexivity|].
  cbn [fold_left]. rewrite IH.
  assert (Hstep : dict_get Span.eq_dec (record_score word_freq d sent) s
                  = if Span.eq_dec s sent
                    then match salience word_freq s with
                         | Some v => Some v
                         | None => dict_get Span.eq_dec d s
                         end
                    else dict_get Span.eq_dec d s).
  { unfold record_score. destruct (Span.eq_dec s sent) as [-> | Hne].
    - destruct (salience word_freq sent); [apply dict_get_set_same | reflexivity].
    - destruct (salience word_freq sent);
        [apply dict_get_set_other; exact Hne | reflexivity]. }
  rewrite Hstep.
  destruct (in_dec Span.eq_dec s sentences) as [Hin | Hnin];
    destruct (in_dec Span.eq_dec s (sent :: sentences)) as [Hin' | Hnin'];
    try (exfalso; apply Hnin'; right; exact Hin).
  - destruct (salience word_freq s); [reflexivity|].
    destruct (Span.eq_dec s sent); reflexivity.
  - destruct Hin' as [-> | Hin']; [|contradiction].
    destruct (Span.eq_dec s s); [|congruence].
    destruct (salience word_freq s); reflexivity.
  - destruct (Span.eq_dec s sent) as [-> | Hne]; [|reflexivity].
    exfalso. apply Hnin'. left. reflexivity.
Qed.




End SummarizerFacts.

(** ** Strings *)

Lemma lstrip_empty s : PyStr.lstrip s = EmptyString <-> PyStr.all_space s = true.
Proof.
  induction s as [|c s IH]; simpl; [tauto|].
  destruct (PyStr.isspace c); simpl; [exact IH|].
  split; discriminate.
Qed.

Lemma rstrip_empty s : PyStr.rstrip s = EmptyString <-> PyStr.all_space s = true.
Proof.
  induction s as [|c s IH]; simpl; [tauto|].
  destruct (PyStr.rstrip s) eqn:E.
  - destruct (PyStr.isspace c); simpl; [|split; discriminate].
    split; intros _; [apply IH|]; reflexivity.
  - split; [discriminate|]. intros Hall.
    apply andb_true_iff in Hall as [_ Hall]. apply IH in Hall. discriminate.
Qed.

Lemma lstrip_all_space s :
  PyStr.all_space (PyStr.lstrip s) = true -> PyStr.all_space s = true.
Proof.
  induction s as [|c s IH]; simpl; [tauto|].
  destruct (PyStr.isspace c) eqn:E; simpl; [exact IH|].
  rewrite E. simpl. tauto.
Qed.

(** [s.strip()] is empty exactly when [s] is all white space. *)
Lemma strip_empty s : PyStr.strip s = EmptyString <-> PyStr.all_space s = true.
Proof.
  unfold PyStr.strip. rewrite rstrip_empty. split.
  - apply lstrip_all_space.
  - intros Hall. apply lstrip_empty in Hall. rewrite Hall. reflexivity.
Qed.

Lemma all_space_app s t :
  PyStr.all_space (s ++ t)%string
  = PyStr.all_space s && PyStr.all_space t.
Proof.
  induction s as [|c s IH]; simpl; [reflexivity|].
  rewrite IH. apply andb_assoc.
Qed.

Lemma falsy_empty s : PyStr.falsy s = true <-> s = EmptyString.
Proof. destruct s; simpl; split; congruence. Qed.

Lemma blank_all_space text : blank text = true <-> PyStr.all_space text = true.
Proof.
  unfold blank. rewrite orb_true_iff, !falsy_empty, strip_empty.
  split; [|tauto]. intros [-> | Hall]; [reflexivity | exact Hall].
Qed.


Lemma join_single sep s : PyStr.join sep [s] = s.
Proof. reflexivity. Qed.

(** ** The decision sequence *)

Section DecisionSequence.
Context {F : Type} `{PyFloat F}.
Variable STOP_WORDS : string -> bool.

(** The returned string is the rendering of the selected summary. *)
Lemma summarize_render text nlp (ratio : F) min_sentences max_sentences :
  summarize_text_spacy STOP_WORDS text nlp ratio min_sentences max_sentences
  = r <- summary_of STOP_WORDS text nlp ratio min_sentences max_sentences ;;
    Ok (render r).
Proof.
  unfold summarize_text_spacy, summary_of.
  destruct (blank text); [reflexivity|].
  destruct (Doc.sents (nlp text)); [reflexivity|].
  destruct (dict_falsy _); [reflexivity|].
  destruct (py_max _); [simpl | reflexivity].
  destruct (normalize _ _); [simpl | reflexivity].
  destruct (score_sentences _ _); reflexivity.
Qed.

Lemma summary_of_blank text nlp (ratio : F) min_sentences max_sentences :
  blank text = true ->
  summary_of STOP_WORDS text nlp ratio min_sentences max_sentences
  = Ok (Verbatim EmptyString).
Proof. intros Hb. unfold summary_of. rewrite Hb. reflexivity. Qed.

Lemma summary_of_unsegmented text nlp (ratio : F) min_sentences max_sentences :
  blank text = false -> Doc.sents (nlp text) = [] ->
  summary_of STOP_WORDS text nlp ratio min_sentences max_sentences
  = Ok (Verbatim (PyStr.strip text)).
Proof. intros Hb Hs. unfold summary_of. rewrite Hb, Hs. reflexivity. Qed.

Lemma summary_of_fallback text nlp (ratio : F) min_sentences max_sentences :
  blank text = false -> Doc.sents (nlp text) <> [] ->
  count_words STOP_WORDS (Doc.tokens (nlp text)) = [] ->
  summary_of STOP_WORDS text nlp ratio min_sentences max_sentences
  = Ok (Sentences (slice_to (Doc.sents (nlp text)) min_sentences)).
Proof.
  intros Hb Hs Hc. unfold summary_of. rewrite Hb, Hc.
  destruct (Doc.sents (nlp text)); [congruence | reflexivity].
Qed.

Lemma summary_of_scored text nlp (ratio : F) min_sentences max_sentences :
  blank text = false -> Doc.sents (nlp text) <> [] ->
  count_words STOP_WORDS (Doc.tokens (nlp text)) <> [] ->
  summary_of STOP_WORDS text nlp ratio min_sentences max_sentences
  = Ok (Sentences
          (chosen_sentences
             (target_count ratio min_sentences max_sentences
                (Z.of_nat (List.length (Doc.sents (nlp text)))))
             (fold_left
                (record_score
                   (weights_of (count_words STOP_WORDS (Doc.tokens (nlp text)))))
                (Doc.sents (nlp text)) []))).
Proof.
  intros Hb Hs Hc. unfold summary_of. rewrite Hb.
  destruct (Doc.sents (nlp text)) as [|s0 rest] eqn:Es; [congruence|].
  destruct (count_words STOP_WORDS (Doc.tokens (nlp text))) as [|e d] eqn:Ec;
    [congruence|].
  cbn [dict_falsy]. rewrite <- Ec in *.
  rewrite py_max_values by exact Hc. cbn [bind].
  rewrite normalize_nonzero
    by (pose proof (max_count_positive STOP_WORDS (Doc.tokens (nlp text)) Hc); lia).
  cbn [bind]. rewrite score_sentences_spec. reflexivity.
Qed.

(** ** The selection *)

Lemma chosen_length K (sent_scores : dict Span.t F) :
  List.length (chosen_sentences K sent_scores)
  = Z.to_nat (Z.min K (Z.of_nat (List.length sent_scores))).
Proof.
  unfold chosen_sentences, top_sentences.
  rewrite sorted_length, length_map. apply nlargest_length.
Qed.


Lemma chosen_In K (sent_scores : dict Span.t F) s :
  In s (chosen_sentences K sent_scores) <-> In s (top_sentences K sent_scores).
Proof.
  unfold chosen_sentences. split; intros Hin.
  - apply (Permutation_in _ (Permutation_sym (sorted_perm Z.ltb Span.start _))).
    exact Hin.
  - apply (Permutation_in _ (sorted_perm Z.ltb Span.start _)). exact Hin.
Qed.




(** Ties go to the sentence met first. *)
Lemma chosen_stable K (sent_scores : dict Span.t F) x sx y sy :
  NoDup (dict_keys sent_scores) ->
  before (x, sx) (y, sy) sent_scores -> flt sx sy = false ->
  In y (chosen_sentences K sent_scores) ->
  In x (chosen_sentences K sent_scores).
Proof.
  intros Hnd Hb Hlt. rewrite !chosen_In. unfold top_sentences.
  intros Hy. apply in_map_iff in Hy as ([y' sy'] & E & Hy). simpl in E. subst y'.
  assert (sy' = sy) as ->.
  { apply nlargest_In in Hy.
    pose proof (dict_get_entry Span.eq_dec _ _ _ Hnd Hy) as E1.
    pose proof (dict_get_entry Span.eq_dec _ _ _ Hnd (before_In_r Hb)) as E2.
    congruence. }
  apply (in_map fst) with (x := (x, sx)).
  eapply nlargest_stable; try eassumption.
  apply dict_entries_NoDup, Hnd.
Qed.

(** ** The target count *)

Lemma target_count_upper (ratio : F) min_sentences max_sentences total :
  target_count ratio min_sentences max_sentences total
  <= Z.min max_sentences total.
Proof. unfold target_count. lia. Qed.

Lemma target_count_lower (ratio : F) min_sentences max_sentences total :
  min_sentences <= max_sentences -> min_sentences <= total ->
  min_sentences <= target_count ratio min_sentences max_sentences total.
Proof. unfold target_count. lia. Qed.

End DecisionSequence.

(* ================================================================== *)
(** * The properties of the specification *)

Section Properties.
Context {F : Type} `{PyFloat F}.
Variable STOP_WORDS : string -> bool.

(** Every run selects a summary; no exception is reachable. *)
Lemma summary_of_total text nlp (ratio : F) min_sentences max_sentences :
  exists r,
    summary_of STOP_WORDS text nlp ratio min_sentences max_sentences = Ok r.
Proof.
  destruct (blank text) eqn:Hb.
  - eexists. apply summary_of_blank, Hb.
  - destruct (Doc.sents (nlp text)) as [|s0 rest] eqn:Es.
    + eexists. apply summary_of_unsegmented; assumption.
    + destruct (count_words STOP_WORDS (Doc.tokens (nlp text))) as [|e d] eqn:Ec.
      * eexists. apply summary_of_fallback; [exact Hb | congruence | exact Ec].
      * eexists. apply summary_of_scored; [exact Hb | congruence | congruence].
Qed.

(** C5. After the scoring loop, the score map holds for every sentence of
    the document its salience and nothing else.  The salience skips the
    space and punctuation tokens only (a stop word is a scored token),
    adds the weights of the scored tokens whose lowercased lemma is in
    the weight map, divides by the number of scored tokens, and is
    undefined for a sentence without scored token: such a sentence has
    no entry. *)
Theorem scores_are_salience (word_freq : dict string F) sentences :
  exists sent_scores,
    score_sentences word_freq sentences = Ok sent_scores
    /\ forall s,
         dict_get Span.eq_dec sent_scores s
         = if in_dec Span.eq_dec s sentences
           then salience word_freq s else None.
Proof.
  eexists. split; [apply score_sentences_spec|].
  intros s. rewrite record_score_get.
  destruct (in_dec Span.eq_dec s sentences); [|reflexivity].
  destruct (salience word_freq s); reflexivity.
Qed.

End Properties.

(** ** Exact arithmetic *)

Lemma inject_Z_positive (m : Z) : 1 <= m -> (0 < inject_Z m)%Q.
Proof. intros Hm. unfold Qlt. simpl. lia. Qed.

Lemma Q_ratio_range (c m : Z) :
  1 <= c -> c <= m ->
  (0 < int_truediv (F := Q) c m /\ int_truediv (F := Q) c m <= 1)%Q.
Proof.
  intros Hc Hm. simpl.
  assert (Hm0 : (0 < inject_Z m)%Q) by (apply inject_Z_positive; lia).
  split.
  - apply Qlt_shift_div_l; [exact Hm0|].
    rewrite Qmult_0_l. apply inject_Z_positive, Hc.
  - apply Qle_shift_div_r; [exact Hm0|].
    rewrite Qmult_1_l. rewrite <- Zle_Qle. exact Hm.
Qed.

Lemma Q_ratio_self (m : Z) : 1 <= m -> (int_truediv (F := Q) m m == 1)%Q.
Proof.
  intros Hm. simpl. unfold Qdiv. apply Qmult_inv_r.
  intros E. pose proof (inject_Z_positive Hm) as Hlt.
  rewrite E in Hlt. apply (Qlt_irrefl 0), Hlt.
Qed.

Lemma Qltb_irrefl (x : Q) : Qltb x x = false.
Proof. unfold Qltb. apply Z.ltb_irrefl. Qed.

(** [int(x)] rounds toward zero; on a non-negative number it is the floor. *)
Lemma Qtrunc_floor (x : Q) : (0 <= x)%Q -> Qtrunc x = Qfloor x.
Proof.
  destruct x as [n d]. unfold Qle, Qtrunc, Qfloor. simpl. intros Hn.
  apply Z.quot_div_nonneg; lia.
Qed.

(** C4. The counter is empty exactly when no token passes the filters of
    section 4.1.  Otherwise, in exact arithmetic, the normalization
    succeeds, every weight lies in (0,1] and some lemma has weight 1: the
    maximum weight is 1. *)
Theorem weights_normalized (STOP_WORDS : string -> bool) (tokens : list Token.t) :
  let word_freq := count_words STOP_WORDS tokens in
  (existsb (content_token STOP_WORDS) tokens = false /\ word_freq = [])
  \/ (existsb (content_token STOP_WORDS) tokens = true
      /\ exists max_f (weights : dict string Q),
           py_max (dict_values word_freq) = Ok max_f
           /\ normalize word_freq max_f = Ok weights
           /\ dict_keys weights = dict_keys word_freq
           /\ (forall w v, In (w, v) weights -> (0 < v /\ v <= 1)%Q)
           /\ (exists w v, In (w, v) weights /\ (v == 1)%Q)).
Proof.
  cbv zeta. destruct (existsb (content_token STOP_WORDS) tokens) eqn:Hex.
  - right. split; [reflexivity|].
    assert (Hne : count_words STOP_WORDS tokens <> []).
    { intros E. apply count_words_nil in E. congruence. }
    pose proof (max_count_positive STOP_WORDS tokens Hne) as Hpos.
    exists (max_count (count_words STOP_WORDS tokens)).
    eexists. split; [apply py_max_values, Hne|].
    split; [apply normalize_nonzero; lia|].
    split; [|split].
    + unfold dict_keys. rewrite map_map. reflexivity.
    + intros w v Hin. apply in_map_iff in Hin as ([w' c] & E & Hin).
      simpl in E. injection E as <- <-.
      apply Q_ratio_range.
      * pose proof (count_words_positive STOP_WORDS tokens) as Hall.
        rewrite Forall_forall in Hall. apply (Hall _ Hin).
      * eapply max_count_bound. exact Hin.
    + destruct (max_count_attained Hne) as [w Hin].
      exists w. eexists. split.
      * apply in_map_iff. exists (w, max_count (count_words STOP_WORDS tokens)).
        split; [reflexivity | exact Hin].
      * apply Q_ratio_self, Hpos.
  - left. split; [reflexivity|]. apply count_words_nil, Hex.
Qed.

(** ** Counting, order and fallback *)

Lemma slice_to_nonneg {A} (l : list A) (n : Z) :
  0 <= n -> slice_to l n = firstn (Z.to_nat n) l.
Proof.
  intros Hn. unfold slice_to. destruct (Z.leb_spec 0 n); [reflexivity | lia].
Qed.



Section Selection.
Context {F : Type} `{PyFloat F}.
Variable STOP_WORDS : string -> bool.

Lemma count_words_cases tokens :
  count_words STOP_WORDS tokens = [] \/ count_words STOP_WORDS tokens <> [].
Proof.
  destruct (count_words STOP_WORDS tokens); [left | right]; congruence.
Qed.

Lemma summarize_of_summary text nlp (ratio : F) min_sentences max_sentences r :
  summary_of STOP_WORDS text nlp ratio min_sentences max_sentences = Ok r ->
  summarize_text_spacy STOP_WORDS text nlp ratio min_sentences max_sentences
  = Ok (render r).
Proof. intros Hr. rewrite summarize_render, Hr. reflexivity. Qed.





(** C6.  When the text is not blank, the document has a sentence and no
    token passes the filters of section 4.1 (the weight map is empty),
    the function raises nothing and returns the first minSentences
    sentences, all of them when there are fewer, each stripped, joined by
    single spaces. *)
Theorem fallback_prefix text nlp (ratio : F) min_sentences max_sentences :
  blank text = false ->
  Doc.sents (nlp text) <> [] ->
  existsb (content_token STOP_WORDS) (Doc.tokens (nlp text)) = false ->
  0 <= min_sentences ->
  summarize_text_spacy STOP_WORDS text nlp ratio min_sentences max_sentences
  = Ok (PyStr.join " "
          (map (fun s => PyStr.strip (Span.text s))
             (firstn (Z.to_nat min_sentences) (Doc.sents (nlp text))))).
Proof.
  intros Hb Hne Hex Hmin. apply count_words_nil in Hex.
  erewrite summarize_of_summary by (apply summary_of_fallback; assumption).
  cbn [render]. unfold join_sentences. rewrite slice_to_nonneg by exact Hmin.
  reflexivity.
Qed.

End Selection.

Section Runs.
Context {F : Type} `{PyFloat F}.
Variable STOP_WORDS : string -> bool.

(** C7.  Two runs on the same text with the same tokenization of it and
    the same configuration return the same string.  The selection is
    stable: in the score map of the document, whenever a sentence [y] is
    selected, so is every sentence [x] met before [y] whose score is not
    below the score of [y], in particular every earlier sentence with the
    same score. *)
Theorem summarize_deterministic text nlp nlp' (ratio : F)
    min_sentences max_sentences :
  nlp text = nlp' text ->
  summarize_text_spacy STOP_WORDS text nlp ratio min_sentences max_sentences
  = summarize_text_spacy STOP_WORDS text nlp' ratio min_sentences max_sentences
  /\ forall (weights : dict string F) K,
       exists sent_scores,
         score_sentences weights (Doc.sents (nlp text)) = Ok sent_scores
         /\ forall x sx y sy,
              before (x, sx) (y, sy) sent_scores ->
              flt sx sy = false ->
              In y (chosen_sentences K sent_scores) ->
              In x (chosen_sentences K sent_scores).
Proof.
  intros Hnlp. split.
  - unfold summarize_text_spacy. rewrite Hnlp. reflexivity.
  - intros weights K. eexists. split; [apply score_sentences_spec|].
    intros x sx y sy. apply chosen_stable, record_score_NoDup. constructor.
Qed.



End Runs.

(* ================================================================== *)
(** * Concrete runs *)

(** The scenario of section 8 of the specification: the two sentences
    densest in the lemma "cat" are returned in document order. *)
Example scenario_cats :
  summarize_text_spacy Sample.STOP_WORDS Sample.cats_text Sample.cats_nlp
    (1 # 2)%Q 1 2
  = Ok "The cat sat. The cat ran fast.".
Proof. vm_compute. reflexivity. Qed.

(** The score of the first sentence counts its stop word "The" in the
    denominator: (1 + 1/4) / 3. *)
Example scenario_first_score :
  (exists v,
     salience
       (weights_of (F := Q)
          (count_words Sample.STOP_WORDS (Doc.tokens Sample.cats_doc)))
       Sample.cats1 = Some v
     /\ v == 5 # 12)%Q.
Proof. eexists. split; [vm_compute; reflexivity | reflexivity]. Qed.








Lemma fallback_prefix_witness :
  existsb (content_token Sample.STOP_WORDS)
    (Doc.tokens (Sample.itis_nlp Sample.itis_text)) = false
  /\ summarize_text_spacy Sample.STOP_WORDS Sample.itis_text Sample.itis_nlp
       (1 # 2)%Q 3 8
     = Ok (PyStr.join " "
             (map (fun s => PyStr.strip (Span.text s))
                (firstn (Z.to_nat 3)
                   (Doc.sents (Sample.itis_nlp Sample.itis_text))))).
Proof.
  split; [reflexivity|].
  apply (@fallback_prefix Q Q_float Sample.STOP_WORDS Sample.itis_text
           Sample.itis_nlp (1 # 2)%Q 3 8).
  - reflexivity.
  - discriminate.
  - reflexivity.
  - lia.
Defined.

Lemma summarize_deterministic_witness :
  summarize_text_spacy Sample.STOP_WORDS Sample.cats_text Sample.cats_nlp
    (1 # 2)%Q 1 2
  = summarize_text_spacy Sample.STOP_WORDS Sample.cats_text Sample.cats_nlp'
      (1 # 2)%Q 1 2.
Proof.
  apply (@summarize_deterministic Q Q_float Sample.STOP_WORDS Sample.cats_text
           Sample.cats_nlp Sample.cats_nlp' (1 # 2)%Q 1 2).
  reflexivity.
Defined.


(** C9, as stated, fails: with minSentences = 3 > maxSentences = 1 the
    function raises nothing and returns a one-sentence summary. *)
Lemma invalid_config_counterexample :
  3 > 1
  /\ summarize_text_spacy Sample.STOP_WORDS Sample.cats_text Sample.cats_nlp
       (1 # 2)%Q 3 1
     = Ok "The cat sat."
  /\ forall e,
       summarize_text_spacy Sample.STOP_WORDS Sample.cats_text Sample.cats_nlp
         (1 # 2)%Q 3 1
       <> Raise e.
Proof.
  split; [lia|]. split; [vm_compute; reflexivity|].
  intros e. vm_compute. discriminate.
Qed.

(* ================================================================== *)
(** * Further properties of the code *)

(** ** The counter counts *)

Lemma lower_char_idempotent c :
  PyStr.lower_char (PyStr.lower_char c) = PyStr.lower_char c.
Proof. destruct c as [[] [] [] [] [] [] [] []]; reflexivity. Qed.

Lemma lower_idempotent s : PyStr.lower (PyStr.lower s) = PyStr.lower s.
Proof.
  induction s as [|c s IH]; simpl; [reflexivity|].
  rewrite lower_char_idempotent, IH. reflexivity.
Qed.

Lemma dict_get_In {K V} (eq_dec : forall a b : K, {a = b} + {a <> b})
    (d : dict K V) k v :
  dict_get eq_dec d k = Some v -> In (k, v) d.
Proof.
  induction d as [|[k0 v0] d IH]; simpl; [discriminate|].
  destruct (eq_dec k k0) as [-> | Hne].
  - intros [= ->]. left. reflexivity.
  - intros Hget. right. apply IH, Hget.
Qed.

Section Counting.
Variable STOP_WORDS : string -> bool.

Lemma count_step_get word_freq token key :
  dict_get_default string_dec (count_step STOP_WORDS word_freq token) key 0
  = dict_get_default string_dec word_freq key 0
    + lemma_count STOP_WORDS key [token].
Proof.
  rewrite count_step_spec. unfold lemma_count. cbn [filter].
  destruct (content_token STOP_WORDS token); cbn [andb]; [|simpl; lia].
  unfold dict_get_default.
  destruct (String.eqb_spec (PyStr.lower (Token.lemma_ token)) key) as [E | E].
  - rewrite E, dict_get_set_same. simpl. lia.
  - rewrite dict_get_set_other by congruence. simpl. lia.
Qed.

Lemma lemma_count_cons key token tokens :
  lemma_count STOP_WORDS key (token :: tokens)
  = lemma_count STOP_WORDS key [token] + lemma_count STOP_WORDS key tokens.
Proof.
  unfold lemma_count. cbn [filter].
  destruct (content_token STOP_WORDS token
            && String.eqb (PyStr.lower (Token.lemma_ token)) key);
    cbn [List.length]; lia.
Qed.

Lemma count_fold_get tokens : forall word_freq key,
  dict_get_default string_dec
    (fold_left (count_step STOP_WORDS) tokens word_freq) key 0
  = dict_get_default string_dec word_freq key 0
    + lemma_count STOP_WORDS key tokens.
Proof.
  induction tokens as [|token tokens IH]; intros d key.
  - unfold lemma_count. simpl. lia.
  - cbn [fold_left].
    rewrite IH, count_step_get, (lemma_count_cons key token tokens). lia.
Qed.

Lemma count_fold_NoDup tokens : forall word_freq,
  NoDup (dict_keys word_freq) ->
  NoDup (dict_keys (fold_left (count_step STOP_WORDS) tokens word_freq)).
Proof.
  induction tokens as [|token tokens IH]; intros d Hd; [exact Hd|].
  cbn [fold_left]. apply IH. rewrite count_step_spec.
  destruct (content_token STOP_WORDS token); [apply dict_set_NoDup|]; exact Hd.
Qed.

Lemma lemma_count_nonneg key tokens : 0 <= lemma_count STOP_WORDS key tokens.
Proof. unfold lemma_count. lia. Qed.

Lemma count_words_get tokens key :
  dict_get string_dec (count_words STOP_WORDS tokens) key
  = if lemma_count STOP_WORDS key tokens =? 0 then None
    else Some (lemma_count STOP_WORDS key tokens).
Proof.
  pose proof (count_fold_get tokens [] key) as Hget.
  fold (count_words STOP_WORDS tokens) in Hget.
  unfold dict_get_default in Hget. cbn [dict_get] in Hget.
  pose proof (lemma_count_nonneg key tokens) as Hnn.
  destruct (dict_get string_dec (count_words STOP_WORDS tokens) key) as [v|] eqn:E.
  - assert (1 <= v)
      by (eapply (@dict_get_Forall _ _ string_dec (fun v => 1 <= v));
          [apply count_words_positive | exact E]).
    destruct (Z.eqb_spec (lemma_count STOP_WORDS key tokens) 0); [lia|].
    f_equal. lia.
  - destruct (Z.eqb_spec (lemma_count STOP_WORDS key tokens) 0); [reflexivity|].
    lia.
Qed.

(** X1.  After the counting loop (lines 28-39) the keys of the counter
    are pairwise distinct and the counter holds, for every key, the
    number of tokens that pass all the filters and whose lowercased lemma
    is that key; a key with no such token is absent. *)
Theorem counter_counts tokens :
  NoDup (dict_keys (count_words STOP_WORDS tokens))
  /\ forall key,
       dict_get string_dec (count_words STOP_WORDS tokens) key
       = if lemma_count STOP_WORDS key tokens =? 0 then None
         else Some (lemma_count STOP_WORDS key tokens).
Proof.
  split; [apply count_fold_NoDup; constructor | apply count_words_get].
Qed.

Lemma count_words_key_token tokens key :
  In key (dict_keys (count_words STOP_WORDS tokens)) ->
  exists token,
    In token tokens /\ content_token STOP_WORDS token = true
    /\ PyStr.lower (Token.lemma_ token) = key.
Proof.
  intros Hin.
  assert (Hget : dict_get string_dec (count_words STOP_WORDS tokens) key <> None).
  { intros E. apply dict_get_None in E. contradiction. }
  rewrite count_words_get in Hget.
  destruct (Z.eqb_spec (lemma_count STOP_WORDS key tokens) 0) as [_ | Hne];
    [congruence|].
  unfold lemma_count in Hne.
  destruct (filter _ tokens) as [|token rest] eqn:Ef; [simpl in Hne; lia|].
  assert (Ht : In token (token :: rest)) by (left; reflexivity).
  rewrite <- Ef in Ht. apply filter_In in Ht as [Ht Hhit].
  apply andb_true_iff in Hhit as [Hc Hk]. apply String.eqb_eq in Hk.
  exists token. auto.
Qed.

(** X2.  Every key of the counter is non-empty, is not a stop word, is
    already lowercase, and is the lowercased lemma of a token of the
    document that is neither space, punctuation, stop word nor a
    punctuation character. *)
Theorem counter_keys_clean tokens key :
  In key (dict_keys (count_words STOP_WORDS tokens)) ->
  key <> EmptyString /\ STOP_WORDS key = false /\ PyStr.lower key = key
  /\ exists token,
       In token tokens /\ PyStr.lower (Token.lemma_ token) = key
       /\ Token.is_space token = false /\ Token.is_punct token = false
       /\ Token.is_stop token = false
       /\ PyStr.in_punct_set (Token.text token) = false.
Proof.
  intros Hin. apply count_words_key_token in Hin as (token & Ht & Hc & <-).
  unfold content_token in Hc.
  repeat (apply andb_true_iff in Hc as [Hc ?]).
  repeat match goal with
         | Hn : negb _ = true |- _ => apply negb_true_iff in Hn
         end.
  split; [intros E; rewrite E in *; discriminate|].
  split; [assumption|]. split; [apply lower_idempotent|].
  exists token. auto 10.
Qed.

End Counting.

(** ** The selection takes the highest scores *)

Section Ranking.
Context {A K : Type} (lt : K -> K -> bool) (key : A -> K).
Hypothesis lt_asym : forall a b, lt a b = true -> lt b a = false.
Hypothesis lt_negtrans :
  forall a b c, lt a b = false -> lt b c = false -> lt a c = false.

(** [x] is not below [y]. *)
Local Abbreviation not_below := (fun x y : A => lt (key x) (key y) = false).

Lemma insert_desc_descending x l :
  StronglySorted not_below l ->
  StronglySorted not_below (insert_desc lt key x l).
Proof.
  induction 1 as [|y l Hl IH Hy]; simpl.
  - constructor; constructor.
  - destruct (lt (key x) (key y)) eqn:Hxy.
    + constructor; [exact IH|].
      rewrite Forall_forall in *. intros z Hz.
      apply (Permutation_in _ (Permutation_sym (insert_desc_perm lt key x l)))
        in Hz.
      destruct Hz as [<- | Hz]; [apply lt_asym, Hxy | apply Hy, Hz].
    + constructor; [constructor; assumption|].
      constructor; [exact Hxy|].
      rewrite Forall_forall in *. intros z Hz.
      apply lt_negtrans with (b := key y); [exact Hxy | apply Hy, Hz].
Qed.

Lemma sorted_reverse_descending l :
  StronglySorted not_below (sorted_reverse lt key l).
Proof.
  induction l as [|x l IH]; simpl; [constructor|].
  apply insert_desc_descending, IH.
Qed.

Lemma descending_split l1 : forall l2 x y,
  StronglySorted not_below (l1 ++ l2) -> In x l1 -> In y l2 -> not_below x y.
Proof.
  induction l1 as [|a l1 IH]; intros l2 x y Hs Hx Hy; [contradiction|].
  simpl in Hs. apply StronglySorted_inv in Hs as [Hs Ha].
  destruct Hx as [-> | Hx]; [|apply (IH l2); assumption].
  rewrite Forall_forall in Ha. apply Ha, in_or_app. right. exact Hy.
Qed.

(** An element that [nlargest] leaves out is not above any element it
    returns. *)
Lemma nlargest_optimal n l x y :
  In x (nlargest lt key n l) -> In y l -> ~ In y (nlargest lt key n l) ->
  lt (key x) (key y) = false.
Proof.
  unfold nlargest. destruct (n <=? 0); [intros []|].
  intros Hx Hy Hny.
  apply (descending_split (firstn (Z.to_nat n) (sorted_reverse lt key l))
           (skipn (Z.to_nat n) (sorted_reverse lt key l))).
  - rewrite firstn_skipn. apply sorted_reverse_descending.
  - exact Hx.
  - apply (Permutation_in _ (sorted_reverse_perm lt key l)) in Hy.
    rewrite <- (firstn_skipn (Z.to_nat n)) in Hy.
    apply in_app_or in Hy as [Hy | Hy]; [contradiction | exact Hy].
Qed.
End Ranking.

Lemma firstn_le_incl {A} (n m : nat) (l : list A) :
  (n <= m)%nat -> incl (firstn n l) (firstn m l).
Proof.
  revert n m. induction l as [|a l IH]; intros [|n] [|m] Hle x Hx;
    simpl in *; try contradiction; try lia.
  destruct Hx as [-> | Hx]; [left; reflexivity | right].
  apply (IH n m); [lia | exact Hx].
Qed.

Lemma nlargest_monotone {A K} (lt : K -> K -> bool) (key : A -> K) n m l :
  n <= m -> incl (nlargest lt key n l) (nlargest lt key m l).
Proof.
  intros Hle. unfold nlargest.
  destruct (Z.leb_spec n 0); [intros x []|].
  destruct (Z.leb_spec m 0); [lia|].
  apply firstn_le_incl. lia.
Qed.

Lemma Qltb_false (a b : Q) : Qltb a b = false <-> (b <= a)%Q.
Proof.
  unfold Qltb, Qle. rewrite Z.ltb_ge. reflexivity.
Qed.

Lemma Qltb_asym (a b : Q) : Qltb a b = true -> Qltb b a = false.
Proof.
  intros Hab. apply Qltb_false. unfold Qltb in Hab. apply Z.ltb_lt in Hab.
  unfold Qle. lia.
Qed.

Lemma Qltb_negtrans (a b c : Q) :
  Qltb a b = false -> Qltb b c = false -> Qltb a c = false.
Proof.
  rewrite !Qltb_false. intros Hba Hcb. apply (Qle_trans _ b); assumption.
Qed.

Section SelectionOrder.
Context {F : Type} `{PyFloat F}.

Lemma chosen_monotone K K' (sent_scores : dict Span.t F) :
  K <= K' ->
  incl (chosen_sentences K sent_scores) (chosen_sentences K' sent_scores).
Proof.
  intros Hle s Hs. apply chosen_In. apply chosen_In in Hs.
  unfold top_sentences in *. apply in_map_iff in Hs as (e & <- & He).
  apply in_map. apply (@nlargest_monotone _ _ flt snd K K' sent_scores Hle), He.
Qed.

(** X3.  When [<] on scores is asymmetric and negatively transitive (a
    strict weak order, as it is on numbers), no sentence left out of the
    selection has a score above the score of a selected sentence: line 66
    takes the highest scores. *)
Theorem selection_takes_highest (weights : dict string F) sentences K :
  (forall a b : F, flt a b = true -> flt b a = false) ->
  (forall a b c : F, flt a b = false -> flt b c = false -> flt a c = false) ->
  exists sent_scores,
    score_sentences weights sentences = Ok sent_scores
    /\ forall x sx y sy,
         In (x, sx) sent_scores -> In (y, sy) sent_scores ->
         In x (chosen_sentences K sent_scores) ->
         ~ In y (chosen_sentences K sent_scores) ->
         flt sx sy = false.
Proof.
  intros Hasym Hneg. eexists. split; [apply score_sentences_spec|].
  set (d := fold_left (record_score weights) sentences []).
  assert (Hnd : NoDup (dict_keys d))
    by (apply record_score_NoDup; constructor).
  intros x sx y sy Hx Hy Hsel Hout.
  apply chosen_In in Hsel. unfold top_sentences in Hsel.
  apply in_map_iff in Hsel as ([x' sx'] & E & Hsel). simpl in E. subst x'.
  assert (sx' = sx) as ->.
  { pose proof (@nlargest_In _ _ flt snd K d _ Hsel) as Hin.
    pose proof (dict_get_entry Span.eq_dec _ _ _ Hnd Hin) as E1.
    pose proof (dict_get_entry Span.eq_dec _ _ _ Hnd Hx) as E2.
    congruence. }
  apply (@nlargest_optimal _ _ flt snd Hasym Hneg K d (x, sx) (y, sy) Hsel Hy).
  intros Hin. apply Hout, chosen_In. unfold top_sentences.
  apply (in_map fst) in Hin. exact Hin.
Qed.

End SelectionOrder.

(** ** Larger settings never drop a sentence *)

Section Monotone.
Context {F : Type} `{PyFloat F}.
Variable STOP_WORDS : string -> bool.

Lemma summary_of_monotone text nlp (ratio ratio' : F)
    min_sentences min_sentences' max_sentences max_sentences' :
  0 <= min_sentences -> min_sentences <= min_sentences' ->
  target_count ratio min_sentences max_sentences
    (Z.of_nat (List.length (Doc.sents (nlp text))))
  <= target_count ratio' min_sentences' max_sentences'
       (Z.of_nat (List.length (Doc.sents (nlp text)))) ->
  exists r r',
    summary_of STOP_WORDS text nlp ratio min_sentences max_sentences = Ok r
    /\ summary_of STOP_WORDS text nlp ratio' min_sentences' max_sentences'
       = Ok r'
    /\ incl (summary_sentences r) (summary_sentences r')
    /\ sentence_count r <= sentence_count r'.
Proof.
  intros Hmin Hle HK.
  destruct (blank text) eqn:Hb.
  - exists (Verbatim EmptyString), (Verbatim EmptyString).
    rewrite !summary_of_blank by exact Hb. simpl.
    repeat split; [intros x [] | lia].
  - destruct (Doc.sents (nlp text)) as [|s0 rest] eqn:Es.
    + exists (Verbatim (PyStr.strip text)), (Verbatim (PyStr.strip text)).
      rewrite !summary_of_unsegmented by assumption. simpl.
      repeat split; [intros x [] | lia].
    + assert (Hne : Doc.sents (nlp text) <> []) by congruence.
      rewrite <- Es in *.
      destruct (count_words_cases STOP_WORDS (Doc.tokens (nlp text)))
        as [Ec | Hc].
      * eexists. eexists.
        split; [apply summary_of_fallback; assumption|].
        split; [apply summary_of_fallback; assumption|].
        cbn [summary_sentences sentence_count].
        rewrite !slice_to_nonneg by lia. split.
        -- apply firstn_le_incl. lia.
        -- rewrite !length_firstn. lia.
      * eexists. eexists.
        split; [apply summary_of_scored; assumption|].
        split; [apply summary_of_scored; assumption|].
        cbn [summary_sentences sentence_count]. split.
        -- apply chosen_monotone, HK.
        -- rewrite !chosen_length. lia.
Qed.


End Monotone.

Lemma Qtrunc_monotone (x y : Q) : (x <= y)%Q -> Qtrunc x <= Qtrunc y.
Proof.
  destruct x as [a b], y as [c d]. unfold Qle, Qtrunc. simpl. intros Hle.
  rewrite <- (Z.quot_mul_cancel_r a (Z.pos b) (Z.pos d)) by lia.
  rewrite <- (Z.quot_mul_cancel_r c (Z.pos d) (Z.pos b)) by lia.
  rewrite (Z.mul_comm (Z.pos d) (Z.pos b)).
  apply Z.quot_le_mono; lia.
Qed.

Lemma Q_target_monotone (ratio ratio' : Q) min_sentences max_sentences total :
  0 <= total -> (ratio <= ratio')%Q ->
  target_count ratio min_sentences max_sentences total
  <= target_count ratio' min_sentences max_sentences total.
Proof.
  intros Htotal Hle. unfold target_count.
  assert (Ht : trunc (fmul (of_int total) ratio)
               <= trunc (fmul (of_int total) ratio')).
  { simpl. apply Qtrunc_monotone.
    destruct ratio as [a b], ratio' as [c d]. unfold Qle in *. simpl in *.
    nia. }
  lia.
Qed.

(** X5.  In exact arithmetic, raising the ratio never drops a sentence
    from the summary nor shortens it (minSentences non-negative). *)
Theorem ratio_monotone (STOP_WORDS : string -> bool) text nlp
    (ratio ratio' : Q) min_sentences max_sentences :
  0 <= min_sentences -> (ratio <= ratio')%Q ->
  exists r r',
    summary_of STOP_WORDS text nlp ratio min_sentences max_sentences = Ok r
    /\ summary_of STOP_WORDS text nlp ratio' min_sentences max_sentences
       = Ok r'
    /\ incl (summary_sentences r) (summary_sentences r')
    /\ sentence_count r <= sentence_count r'.
Proof.
  intros Hmin Hle. apply summary_of_monotone; [exact Hmin | lia |].
  apply Q_target_monotone; [lia | exact Hle].
Qed.

(** ** Scores lie between 0 and 1 *)

Lemma Qsum_bounds (ws : list Q) :
  (forall w, In w ws -> (0 <= w /\ w <= 1)%Q) ->
  forall acc,
    (acc <= fold_left Qplus ws acc
     /\ fold_left Qplus ws acc
        <= acc + inject_Z (Z.of_nat (List.length ws)))%Q.
Proof.
  induction ws as [|w ws IH]; intros Hws acc.
  - simpl. split; [apply Qle_refl|].
    rewrite Qplus_0_r. apply Qle_refl.
  - cbn [fold_left List.length].
    destruct (Hws w (or_introl eq_refl)) as [Hw0 Hw1].
    destruct (IH (fun z Hz => Hws z (or_intror Hz)) (acc + w)%Q) as [Hlo Hhi].
    split.
    + apply (Qle_trans _ (acc + w)); [|exact Hlo].
      rewrite <- (Qplus_0_r acc) at 1. apply Qplus_le_compat;
        [apply Qle_refl | exact Hw0].
    + apply (Qle_trans _ _ _ Hhi).
      rewrite Nat2Z.inj_succ, <- Z.add_1_l, inject_Z_plus.
      rewrite <- Qplus_assoc. apply Qplus_le_compat; [apply Qle_refl|].
      apply Qplus_le_compat; [exact Hw1 | apply Qle_refl].
Qed.

Lemma present_weights_length {F} (word_freq : dict string F) tokens :
  (List.length (present_weights word_freq tokens) <= List.length tokens)%nat.
Proof.
  unfold present_weights. induction tokens as [|token tokens IH]; simpl; [lia|].
  rewrite length_app.
  destruct (dict_get string_dec word_freq (PyStr.lower (Token.lemma_ token)));
    simpl; lia.
Qed.

Lemma present_weights_In {F} (word_freq : dict string F) tokens w :
  In w (present_weights word_freq tokens) ->
  exists key, In (key, w) word_freq.
Proof.
  unfold present_weights. intros Hin.
  apply in_flat_map in Hin as (token & _ & Hw).
  destruct (dict_get string_dec word_freq (PyStr.lower (Token.lemma_ token)))
    as [v|] eqn:E; [|contradiction].
  destruct Hw as [<- | []]. eexists. apply (dict_get_In _ _ _ E).
Qed.

Lemma weights_of_range (STOP_WORDS : string -> bool) tokens key w :
  In (key, w) (weights_of (F := Q) (count_words STOP_WORDS tokens)) ->
  (0 < w /\ w <= 1)%Q.
Proof.
  unfold weights_of. intros Hin.
  apply in_map_iff in Hin as ([k c] & E & Hin). simpl in E.
  injection E as <- <-. apply Q_ratio_range.
  - pose proof (count_words_positive STOP_WORDS tokens) as Hall.
    rewrite Forall_forall in Hall. apply (Hall _ Hin).
  - eapply max_count_bound. exact Hin.
Qed.

Lemma salience_range (word_freq : dict string Q) sent v :
  (forall key w, In (key, w) word_freq -> (0 <= w /\ w <= 1)%Q) ->
  salience word_freq sent = Some v -> (0 <= v /\ v <= 1)%Q.
Proof.
  intros Hw. unfold salience.
  destruct (filter scored_token (Span.tokens sent)) as [|t l]; [discriminate|].
  set (toks := t :: l). intros [= <-].
  assert (Hn : (0 < inject_Z (Z.of_nat (List.length toks)))%Q)
    by (apply inject_Z_positive; simpl; lia).
  destruct (Qsum_bounds (present_weights word_freq toks)) with (acc := 0%Q)
    as [Hlo Hhi].
  { intros w Hin. apply present_weights_In in Hin as [key Hin].
    apply (Hw key w Hin). }
  simpl fadd. simpl of_int. simpl fdiv. split.
  - apply Qle_shift_div_l; [exact Hn|]. rewrite Qmult_0_l. exact Hlo.
  - apply Qle_shift_div_r; [exact Hn|]. rewrite Qmult_1_l.
    apply (Qle_trans _ _ _ Hhi). rewrite Qplus_0_l.
    rewrite <- Zle_Qle.
    pose proof (present_weights_length word_freq toks) as Hlen.
    subst toks. cbn [List.length] in *. lia.
Qed.

(** X6.  In exact arithmetic, with the weight map the code builds from
    any token sequence, every score stored by the scoring loop lies
    between 0 and 1. *)
Theorem scores_in_unit_interval (STOP_WORDS : string -> bool)
    (tokens : list Token.t) (sentences : list Span.t) :
  exists sent_scores,
    score_sentences
      (weights_of (F := Q) (count_words STOP_WORDS tokens)) sentences
    = Ok sent_scores
    /\ forall s v, In (s, v) sent_scores -> (0 <= v /\ v <= 1)%Q.
Proof.
  eexists. split; [apply score_sentences_spec|].
  intros s v Hin.
  assert (Hnd : NoDup
                  (dict_keys
                     (fold_left
                        (record_score
                           (weights_of (F := Q)
                              (count_words STOP_WORDS tokens)))
                        sentences [])))
    by (apply record_score_NoDup; constructor).
  pose proof (dict_get_entry Span.eq_dec _ _ _ Hnd Hin) as Hget.
  rewrite record_score_get in Hget.
  destruct (in_dec Span.eq_dec s sentences); [|discriminate].
  destruct (salience (weights_of (count_words STOP_WORDS tokens)) s) as [v'|]
    eqn:Es; [|discriminate].
  injection Hget as ->.
  apply (salience_range _ _ (fun key w Hw =>
           let '(conj Hlt Hle) := weights_of_range _ _ _ _ Hw in
           conj (Qlt_le_weak _ _ Hlt) Hle) Es).
Qed.

(** ** What the summary is made of *)

Section Content.
Context {F : Type} `{PyFloat F}.
Variable STOP_WORDS : string -> bool.





(** X9.  On the fallback path (no token passes the filters) the summary
    is a prefix of the document's sentences whose length is
    min(minSentences, totalSentences) when minSentences >= 0 and
    max(0, totalSentences + minSentences) when it is negative (a Python
    slice); maxSentences and the ratio play no part. *)
Theorem fallback_count text nlp (ratio : F) min_sentences max_sentences :
  blank text = false ->
  Doc.sents (nlp text) <> [] ->
  existsb (content_token STOP_WORDS) (Doc.tokens (nlp text)) = false ->
  let total := Z.of_nat (List.length (Doc.sents (nlp text))) in
  exists l,
    summary_of STOP_WORDS text nlp ratio min_sentences max_sentences
    = Ok (Sentences l)
    /\ l = firstn (List.length l) (Doc.sents (nlp text))
    /\ Z.of_nat (List.length l)
       = if 0 <=? min_sentences then Z.min min_sentences total
         else Z.max 0 (total + min_sentences).
Proof.
  intros Hb Hne Hex total. apply count_words_nil in Hex.
  eexists. split; [apply summary_of_fallback; assumption|].
  unfold slice_to. subst total.
  destruct (Z.leb_spec 0 min_sentences) as [Hmin | Hmin].
  - split; [|rewrite length_firstn; lia].
    rewrite length_firstn.
    destruct (Nat.min_spec (Z.to_nat min_sentences)
                (List.length (Doc.sents (nlp text)))) as [[_ ->] | [Hle ->]].
    + reflexivity.
    + rewrite !firstn_all2 by lia. reflexivity.
  - split; [|rewrite length_firstn; lia].
    rewrite length_firstn.
    destruct (Nat.min_spec
                (Z.to_nat
                   (Z.of_nat (List.length (Doc.sents (nlp text)))
                    + min_sentences))
                (List.length (Doc.sents (nlp text)))) as [[_ ->] | [Hle ->]].
    + reflexivity.
    + rewrite !firstn_all2 by lia. reflexivity.
Qed.

(** X10.  A text that is empty or all white space is summarized to the
    empty string, whatever the pipeline and the configuration
    (lines 17-18). *)
Theorem blank_text_empty_summary text nlp (ratio : F)
    min_sentences max_sentences :
  PyStr.all_space text = true ->
  summarize_text_spacy STOP_WORDS text nlp ratio min_sentences max_sentences
  = Ok EmptyString.
Proof.
  intros Hall. apply blank_all_space in Hall.
  erewrite summarize_of_summary by (apply summary_of_blank; exact Hall).
  reflexivity.
Qed.

(** X11.  A text with a character that is not white space, for which
    the pipeline finds no sentence, is returned stripped, and that
    string is not empty (lines 22-23). *)
Theorem unsegmented_text_stripped text nlp (ratio : F)
    min_sentences max_sentences :
  PyStr.all_space text = false ->
  Doc.sents (nlp text) = [] ->
  summarize_text_spacy STOP_WORDS text nlp ratio min_sentences max_sentences
  = Ok (PyStr.strip text)
  /\ PyStr.strip text <> EmptyString.
Proof.
  intros Hall Hs.
  assert (Hb : blank text = false).
  { destruct (blank text) eqn:E; [|reflexivity].
    apply blank_all_space in E. congruence. }
  split.
  - erewrite summarize_of_summary by (apply summary_of_unsegmented; assumption).
    reflexivity.
  - intros E. apply strip_empty in E. congruence.
Qed.

End Content.

(** ** The front end *)

Lemma split_on_last sep ext : forall base,
  App.has_char sep ext = false ->
  exists h t,
    App.split_on sep (base ++ String sep ext)%string = h :: t
    /\ t <> [] /\ last t EmptyString = ext.
Proof.
  intros base Hext.
  assert (Hsingle : App.split_on sep ext = [ext]).
  { clear base. induction ext as [|c ext IH]; [reflexivity|].
    simpl in *. apply orb_false_iff in Hext as [Hc Hext].
    rewrite Hc, (IH Hext). reflexivity. }
  induction base as [|c base (h & t & E & Ht & Hlast)]; simpl.
  - rewrite Ascii.eqb_refl, Hsingle.
    exists EmptyString, [ext]. split; [reflexivity|]. split; [discriminate|].
    reflexivity.
  - rewrite E. destruct (Ascii.eqb c sep).
    + exists EmptyString, (h :: t). split; [reflexivity|].
      split; [discriminate|]. destruct t; [congruence | exact Hlast].
    + exists (String c h), t. auto.
Qed.

Lemma split_on_single sep s :
  App.has_char sep s = false -> App.split_on sep s = [s].
Proof.
  induction s as [|c s IH]; [reflexivity|]. simpl. intros Hs.
  apply orb_false_iff in Hs as [Hc Hs]. rewrite Hc, (IH Hs). reflexivity.
Qed.

(** X12.  The extension the upload branch dispatches on (line 100) is
    the lowercased part of the file name after its last dot; for a name
    without dot it is the whole lowercased name. *)
Theorem file_extension_spec (base ext : string) :
  App.has_char "."%char ext = false ->
  App.file_extension (base ++ String "."%char ext)%string = PyStr.lower ext
  /\ App.file_extension ext = PyStr.lower ext.
Proof.
  intros Hext. unfold App.file_extension. split.
  - destruct (@split_on_last "."%char ext base Hext) as (h & t & -> & Ht & Hlast).
    destruct t as [|x t]; [congruence|]. cbn [last]. cbn [last] in Hlast.
    rewrite Hlast. reflexivity.
  - rewrite split_on_single by exact Hext. reflexivity.
Qed.

Lemma concat_all_space sep (l : list string) :
  PyStr.all_space sep = true ->
  Forall (fun s => PyStr.all_space s = true) l ->
  PyStr.all_space (String.concat sep l) = true.
Proof.
  intros Hsep. induction 1 as [|x l Hx Hl IH]; [reflexivity|].
  destruct l as [|y l]; [exact Hx|].
  change (String.concat sep (x :: y :: l))
    with (x ++ sep ++ String.concat sep (y :: l))%string.
  rewrite !all_space_app, Hx, Hsep, IH. reflexivity.
Qed.

Lemma pdf_text_blank pages :
  Forall (fun page => page = None \/ page = Some EmptyString) pages ->
  PyStr.all_space (App.pdf_text pages) = true.
Proof.
  intros Hpages. unfold App.pdf_text, PyStr.join.
  apply concat_all_space; [reflexivity|].
  apply Forall_map. apply (Forall_impl _ (P := fun page =>
                                            page = None \/ page = Some EmptyString));
    [|exact Hpages].
  intros page [-> | ->]; reflexivity.
Qed.

Section FrontEnd.
Context {F : Type} `{PyFloat F}.
Variable STOP_WORDS : string -> bool.

Lemma on_generate_blank nlp (ratio : F) min_sents max_sents input_text :
  PyStr.all_space input_text = true ->
  App.on_generate STOP_WORDS nlp ratio min_sents max_sents input_text
  = Ok [App.Warning].
Proof.
  intros Hall. unfold App.on_generate.
  apply strip_empty in Hall. rewrite Hall. reflexivity.
Qed.

(** X14.  Uploading a PDF none of whose pages has extractable text
    ([extract_text] gives [None] or the empty string) ends in the warning,
    not in a summary. *)
Theorem scanned_pdf_warns nlp (ratio : F) min_sents max_sents uploaded_file :
  App.file_extension (App.name uploaded_file) = "pdf" ->
  Forall (fun page => page = None \/ page = Some EmptyString)
    (App.pages uploaded_file) ->
  App.run STOP_WORDS nlp ratio min_sents max_sents
    (App.UploadFile (Some uploaded_file)) true
  = Ok [App.Warning].
Proof.
  intros Hext Hpages. unfold App.run. apply on_generate_blank.
  cbn [App.input_text_of]. unfold App.read_upload. rewrite Hext.
  cbn. apply pdf_text_blank, Hpages.
Qed.

End FrontEnd.

(** ** The weight of a lemma *)

Section Weights.
Context {F : Type} `{PyFloat F}.
Variable STOP_WORDS : string -> bool.

Lemma dict_get_map_values {V W} (f : V -> W) (d : dict string V) key :
  dict_get string_dec (map (fun e => (fst e, f (snd e))) d) key
  = option_map f (dict_get string_dec d key).
Proof.
  induction d as [|[k v] d IH]; simpl; [reflexivity|].
  destruct (string_dec key k); [reflexivity | exact IH].
Qed.

(** X15.  When some token passes the filters, lines 44-46 succeed; the
    divisor is the largest count of a lemma, and the weight map holds for
    every lemma with a positive count the quotient of its count by that
    largest count, and nothing else. *)
Theorem weight_is_relative_count tokens :
  existsb (content_token STOP_WORDS) tokens = true ->
  exists max_f (weights : dict string F),
    py_max (dict_values (count_words STOP_WORDS tokens)) = Ok max_f
    /\ normalize (count_words STOP_WORDS tokens) max_f = Ok weights
    /\ (forall key, lemma_count STOP_WORDS key tokens <= max_f)
    /\ (exists key, lemma_count STOP_WORDS key tokens = max_f)
    /\ forall key,
         dict_get string_dec weights key
         = if lemma_count STOP_WORDS key tokens =? 0 then None
           else Some (int_truediv (lemma_count STOP_WORDS key tokens) max_f).
Proof.
  intros Hex.
  assert (Hne : count_words STOP_WORDS tokens <> []).
  { intros E. apply count_words_nil in E. congruence. }
  pose proof (max_count_positive STOP_WORDS tokens Hne) as Hpos.
  exists (max_count (count_words STOP_WORDS tokens)). eexists.
  split; [apply py_max_values, Hne|].
  split; [apply normalize_nonzero; lia|].
  split; [|split].
  - intros key. pose proof (count_words_get STOP_WORDS tokens key) as Hget.
    destruct (Z.eqb_spec (lemma_count STOP_WORDS key tokens) 0) as [-> | _];
      [lia|].
    apply dict_get_In in Hget. eapply max_count_bound. exact Hget.
  - destruct (max_count_attained Hne) as [key Hin]. exists key.
    pose proof (dict_get_entry string_dec _ _ _
                  (count_fold_NoDup STOP_WORDS tokens [] (NoDup_nil _)) Hin)
      as Hget.
    fold (count_words STOP_WORDS tokens) in Hget.
    rewrite count_words_get in Hget.
    destruct (lemma_count STOP_WORDS key tokens =? 0); congruence.
  - intros key.
    rewrite (dict_get_map_values
               (fun c => int_truediv c (max_count (count_words STOP_WORDS tokens)))).
    rewrite count_words_get.
    destruct (lemma_count STOP_WORDS key tokens =? 0); reflexivity.
Qed.

End Weights.

Lemma present_weights_absent {F} (word_freq : dict string F) tokens :
  (forall token, In token tokens ->
     dict_get string_dec word_freq (PyStr.lower (Token.lemma_ token)) = None) ->
  present_weights word_freq tokens = [].
Proof.
  unfold present_weights. induction tokens as [|token tokens IH]; intros Habs;
    [reflexivity|].
  simpl. rewrite (Habs token (or_introl eq_refl)). simpl.
  apply IH. intros t Ht. apply Habs. right. exact Ht.
Qed.

(** X16.  In exact arithmetic, a sentence that has a scored token but
    none whose lowercased lemma is in the weight map (a sentence of stop
    words, say) is still entered in the score map, with score 0. *)
Theorem unweighted_sentence_scores_zero (word_freq : dict string Q)
    (sentences : list Span.t) (sent : Span.t) :
  In sent sentences ->
  scorable sent = true ->
  (forall token, In token (Span.tokens sent) -> scored_token token = true ->
     dict_get string_dec word_freq (PyStr.lower (Token.lemma_ token)) = None) ->
  exists sent_scores v,
    score_sentences word_freq sentences = Ok sent_scores
    /\ dict_get Span.eq_dec sent_scores sent = Some v
    /\ (v == 0)%Q.
Proof.
  intros Hin Hsc Habs.
  apply (scorable_salience word_freq) in Hsc.
  destruct (salience word_freq sent) as [v|] eqn:Es; [|congruence].
  eexists. exists v. split; [apply score_sentences_spec|]. split.
  - rewrite record_score_get.
    destruct (in_dec Span.eq_dec sent sentences); [|contradiction].
    rewrite Es. reflexivity.
  - unfold salience in Es.
    destruct (filter scored_token (Span.tokens sent)) as [|t l] eqn:Ef;
      [discriminate|].
    rewrite present_weights_absent in Es.
    + injection Es as <-. simpl. unfold Qdiv. rewrite Qmult_0_l. reflexivity.
    + intros token Ht. rewrite <- Ef in Ht. apply filter_In in Ht as [Ht Hs].
      apply Habs; assumption.
Qed.

(** ** Concrete runs of the further properties *)

Lemma counter_keys_clean_witness :
  "cat" <> EmptyString /\ Sample.STOP_WORDS "cat" = false
  /\ PyStr.lower "cat" = "cat"
  /\ exists token,
       In token (Doc.tokens Sample.cats_doc)
       /\ PyStr.lower (Token.lemma_ token) = "cat"
       /\ Token.is_space token = false /\ Token.is_punct token = false
       /\ Token.is_stop token = false
       /\ PyStr.in_punct_set (Token.text token) = false.
Proof.
  apply (@counter_keys_clean Sample.STOP_WORDS (Doc.tokens Sample.cats_doc) "cat").
  vm_compute. left. reflexivity.
Defined.

Lemma selection_takes_highest_witness :
  exists sent_scores,
    score_sentences
      (weights_of (F := Q)
         (count_words Sample.STOP_WORDS (Doc.tokens Sample.cats_doc)))
      Sample.cats_sents
    = Ok sent_scores
    /\ forall x sx y sy,
         In (x, sx) sent_scores -> In (y, sy) sent_scores ->
         In x (chosen_sentences 2 sent_scores) ->
         ~ In y (chosen_sentences 2 sent_scores) ->
         Qltb sx sy = false.
Proof.
  apply (@selection_takes_highest Q Q_float
           (weights_of
              (count_words Sample.STOP_WORDS (Doc.tokens Sample.cats_doc)))
           Sample.cats_sents 2).
  - exact Qltb_asym.
  - exact Qltb_negtrans.
Defined.


Lemma ratio_monotone_witness :
  exists r r',
    summary_of Sample.STOP_WORDS Sample.cats_text Sample.cats_nlp (1 # 2)%Q 1 8
    = Ok r
    /\ summary_of Sample.STOP_WORDS Sample.cats_text Sample.cats_nlp
         (3 # 4)%Q 1 8 = Ok r'
    /\ incl (summary_sentences r) (summary_sentences r')
    /\ sentence_count r <= sentence_count r'.
Proof.
  apply (@ratio_monotone Sample.STOP_WORDS Sample.cats_text Sample.cats_nlp
           (1 # 2)%Q (3 # 4)%Q 1 8).
  - lia.
  - unfold Qle. simpl. lia.
Defined.



Lemma fallback_count_witness :
  exists l,
    summary_of Sample.STOP_WORDS Sample.itis_text Sample.itis_nlp (1 # 2)%Q 5 2
    = Ok (Sentences l)
    /\ l = firstn (List.length l) (Doc.sents (Sample.itis_nlp Sample.itis_text))
    /\ Z.of_nat (List.length l) = 1.
Proof.
  apply (@fallback_count Q Q_float Sample.STOP_WORDS Sample.itis_text
           Sample.itis_nlp (1 # 2)%Q 5 2).
  - reflexivity.
  - discriminate.
  - reflexivity.
Defined.

Lemma blank_text_empty_summary_witness :
  summarize_text_spacy Sample.STOP_WORDS Sample2.blank_text Sample.cats_nlp
    (1 # 2)%Q 1 2
  = Ok EmptyString.
Proof.
  apply (@blank_text_empty_summary Q Q_float Sample.STOP_WORDS
           Sample2.blank_text Sample.cats_nlp (1 # 2)%Q 1 2).
  reflexivity.
Defined.

Lemma unsegmented_text_stripped_witness :
  summarize_text_spacy Sample.STOP_WORDS " Cats. " Sample2.silent_nlp
    (1 # 2)%Q 1 2
  = Ok (PyStr.strip " Cats. ")
  /\ PyStr.strip " Cats. " <> EmptyString.
Proof.
  apply (@unsegmented_text_stripped Q Q_float Sample.STOP_WORDS " Cats. "
           Sample2.silent_nlp (1 # 2)%Q 1 2).
  - reflexivity.
  - reflexivity.
Defined.

Lemma file_extension_spec_witness :
  App.file_extension "notes.v2.TXT" = "txt"
  /\ App.file_extension "TXT" = "txt".
Proof.
  apply (@file_extension_spec "notes.v2" "TXT"). reflexivity.
Defined.

Lemma scanned_pdf_warns_witness :
  App.run Sample.STOP_WORDS Sample.cats_nlp (1 # 2)%Q 3 8
    (App.UploadFile (Some Sample2.scan)) true
  = Ok [App.Warning].
Proof.
  apply (@scanned_pdf_warns Q Q_float Sample.STOP_WORDS Sample.cats_nlp
           (1 # 2)%Q 3 8 Sample2.scan).
  - reflexivity.
  - constructor; [left; reflexivity|].
    constructor; [right; reflexivity|].
    constructor; [left; reflexivity | constructor].
Defined.

Lemma weight_is_relative_count_witness :
  exists max_f (weights : dict string Q),
    py_max
      (dict_values (count_words Sample.STOP_WORDS (Doc.tokens Sample.cats_doc)))
    = Ok max_f
    /\ normalize (count_words Sample.STOP_WORDS (Doc.tokens Sample.cats_doc))
         max_f = Ok weights
    /\ (forall key,
          lemma_count Sample.STOP_WORDS key (Doc.tokens Sample.cats_doc)
          <= max_f)
    /\ (exists key,
          lemma_count Sample.STOP_WORDS key (Doc.tokens Sample.cats_doc)
          = max_f)
    /\ forall key,
         dict_get string_dec weights key
         = if lemma_count Sample.STOP_WORDS key (Doc.tokens Sample.cats_doc)
              =? 0
           then None
           else Some
                  (int_truediv
                     (lemma_count Sample.STOP_WORDS key
                        (Doc.tokens Sample.cats_doc)) max_f).
Proof.
  apply (@weight_is_relative_count Q Q_float Sample.STOP_WORDS
           (Doc.tokens Sample.cats_doc)).
  reflexivity.
Defined.

Lemma unweighted_sentence_scores_zero_witness :
  exists sent_scores v,
    score_sentences
      (weights_of (F := Q)
         (count_words Sample.STOP_WORDS (Doc.tokens Sample.cats_doc)))
      [Sample.cats1; Sample.itis]
    = Ok sent_scores
    /\ dict_get Span.eq_dec sent_scores Sample.itis = Some v
    /\ (v == 0)%Q.
Proof.
  apply (@unweighted_sentence_scores_zero
           (weights_of
              (count_words Sample.STOP_WORDS (Doc.tokens Sample.cats_doc)))
           [Sample.cats1; Sample.itis] Sample.itis).
  - right. left. reflexivity.
  - reflexivity.
  - intros token [<- | [<- | [<- | []]]] _; reflexivity.
Defined.

(* ================================================================== *)
(** * The function with the failure of [int()] *)

Section FullFacts.
Context {F : Type} `{PyFloat F} `{PyFloatSpecial F}.
Variable STOP_WORDS : string -> bool.

Lemma reaches_int_true text nlp :
  Full.reaches_int STOP_WORDS text nlp = true ->
  blank text = false /\ Doc.sents (nlp text) <> []
  /\ count_words STOP_WORDS (Doc.tokens (nlp text)) <> [].
Proof.
  unfold Full.reaches_int. intros Hr.
  apply andb_true_iff in Hr as [Hr Hc]. apply andb_true_iff in Hr as [Hb Hs].
  apply negb_true_iff in Hb, Hs, Hc. split; [exact Hb|]. split.
  - intros E. rewrite E in Hs. discriminate.
  - intros E. rewrite E in Hc. discriminate.
Qed.

Lemma reaches_int_false text nlp :
  Full.reaches_int STOP_WORDS text nlp = false ->
  blank text = true \/ Doc.sents (nlp text) = []
  \/ count_words STOP_WORDS (Doc.tokens (nlp text)) = [].
Proof.
  unfold Full.reaches_int. intros Hr.
  destruct (blank text); [left; reflexivity | right].
  destruct (Doc.sents (nlp text)); [left; reflexivity | right].
  destruct (count_words STOP_WORDS (Doc.tokens (nlp text)));
    [reflexivity | discriminate].
Qed.

(** Where [int()] is defined, line 63 is the truncation. *)
Lemma py_int_defined (x : F) :
  is_nan x = false -> is_inf x = false -> Full.py_int x = Ok (trunc x).
Proof. intros Hn Hi. unfold Full.py_int. rewrite Hn, Hi. reflexivity. Qed.

(** The outcome of a run: the exception of [int()] when line 63 is
    reached with a NaN or infinite product, and otherwise the summary
    computed with the truncation. *)
Lemma Full_summary_of_outcome text nlp (ratio : F) min_sentences max_sentences :
  Full.summary_of STOP_WORDS text nlp ratio min_sentences max_sentences
  = if Full.reaches_int STOP_WORDS text nlp
    then if is_nan (Full.int_argument text nlp ratio) then Raise ValueError
         else if is_inf (Full.int_argument text nlp ratio)
              then Raise OverflowError
              else summary_of STOP_WORDS text nlp ratio
                     min_sentences max_sentences
    else summary_of STOP_WORDS text nlp ratio min_sentences max_sentences.
Proof.
  destruct (Full.reaches_int STOP_WORDS text nlp) eqn:Hr.
  - apply reaches_int_true in Hr as (Hb & Hs & Hc).
    rewrite (summary_of_scored STOP_WORDS text nlp ratio min_sentences
               max_sentences Hb Hs Hc).
    unfold Full.summary_of. rewrite Hb.
    destruct (Doc.sents (nlp text)) as [|s0 rest] eqn:Es; [congruence|].
    destruct (count_words STOP_WORDS (Doc.tokens (nlp text))) as [|e d] eqn:Ec;
      [congruence|].
    cbn [dict_falsy]. rewrite <- Ec, <- Es in *.
    rewrite py_max_values by exact Hc. cbn [bind].
    rewrite normalize_nonzero
      by (pose proof (max_count_positive STOP_WORDS (Doc.tokens (nlp text)) Hc);
          lia).
    cbn [bind]. rewrite score_sentences_spec. cbn [bind].
    unfold Full.target_count, Full.py_int, Full.int_argument.
    destruct (is_nan _); [reflexivity|]. destruct (is_inf _); reflexivity.
  - unfold Full.summary_of, summary_of.
    apply reaches_int_false in Hr as [Hb | [Hs | Hc]].
    + rewrite Hb. reflexivity.
    + destruct (blank text); [reflexivity|]. rewrite Hs. reflexivity.
    + destruct (blank text); [reflexivity|].
      destruct (Doc.sents (nlp text)); [reflexivity|]. rewrite Hc. reflexivity.
Qed.

Lemma Full_summarize_render text nlp (ratio : F) min_sentences max_sentences :
  Full.summarize_text_spacy STOP_WORDS text nlp ratio
    min_sentences max_sentences
  = r <- Full.summary_of STOP_WORDS text nlp ratio
           min_sentences max_sentences ;;
    Ok (render r).
Proof.
  unfold Full.summarize_text_spacy, Full.summary_of.
  destruct (blank text); [reflexivity|].
  destruct (Doc.sents (nlp text)); [reflexivity|].
  destruct (dict_falsy _); [reflexivity|].
  destruct (py_max _); [simpl | reflexivity].
  destruct (normalize _ _); [simpl | reflexivity].
  destruct (score_sentences _ _); [simpl | reflexivity].
  destruct (Full.target_count _ _ _ _); reflexivity.
Qed.

(** Where line 63 is not reached or [int()] is defined, the function is
    [summarize_text_spacy]. *)
Lemma Full_agrees text nlp (ratio : F) min_sentences max_sentences :
  Full.reaches_int STOP_WORDS text nlp = false
  \/ (is_nan (Full.int_argument text nlp ratio) = false
      /\ is_inf (Full.int_argument text nlp ratio) = false) ->
  Full.summary_of STOP_WORDS text nlp ratio min_sentences max_sentences
  = summary_of STOP_WORDS text nlp ratio min_sentences max_sentences
  /\ Full.summarize_text_spacy STOP_WORDS text nlp ratio
       min_sentences max_sentences
     = summarize_text_spacy STOP_WORDS text nlp ratio
         min_sentences max_sentences.
Proof.
  intros Hok.
  assert (E : Full.summary_of STOP_WORDS text nlp ratio
                min_sentences max_sentences
              = summary_of STOP_WORDS text nlp ratio
                  min_sentences max_sentences).
  { rewrite Full_summary_of_outcome.
    destruct Hok as [-> | [-> ->]]; [reflexivity|].
    destruct (Full.reaches_int STOP_WORDS text nlp); reflexivity. }
  split; [exact E|].
  rewrite Full_summarize_render, E, summarize_render. reflexivity.
Qed.

(** C10.  Whenever [int()] is defined on the product of line 63 (the
    product of the number of sentences by the ratio is neither NaN nor
    infinite, as it is for a ratio in (0,1]), the function returns a
    string for every text and tokenization: no exception is reachable.
    Both divisions are guarded: the counter is either empty (and then no
    division is made) or its maximum exists and is at least 1, so the
    normalization succeeds; and the scoring loop, which divides only when
    the sentence has a scored token, succeeds for every weight map and
    every list of sentences. *)
Theorem summarize_total text nlp (ratio : F) min_sentences max_sentences :
  is_nan (Full.int_argument text nlp ratio) = false ->
  is_inf (Full.int_argument text nlp ratio) = false ->
  (exists out,
     Full.summarize_text_spacy STOP_WORDS text nlp ratio
       min_sentences max_sentences
     = Ok out)
  /\ (let word_freq := count_words STOP_WORDS (Doc.tokens (nlp text)) in
      word_freq = []
      \/ exists max_f weights,
           py_max (dict_values word_freq) = Ok max_f /\ 1 <= max_f
           /\ normalize (F := F) word_freq max_f = Ok weights)
  /\ (forall (weights : dict string F) sentences,
        exists sent_scores, score_sentences weights sentences = Ok sent_scores).
Proof.
  intros Hnan Hinf. split; [|split].
  - rewrite Full_summarize_render, Full_summary_of_outcome, Hnan, Hinf.
    destruct (summary_of_total STOP_WORDS text nlp ratio
                min_sentences max_sentences) as [r ->].
    destruct (Full.reaches_int STOP_WORDS text nlp); eexists; reflexivity.
  - cbv zeta.
    destruct (count_words_cases STOP_WORDS (Doc.tokens (nlp text)))
      as [Ec | Hne]; [left; exact Ec | right].
    pose proof (max_count_positive STOP_WORDS _ Hne) as Hpos.
    eexists. eexists. split; [apply py_max_values, Hne|].
    split; [exact Hpos|]. apply normalize_nonzero. lia.
  - intros weights sentences. eexists. apply score_sentences_spec.
Qed.

(** C9, amended.  The function does not validate its configuration.  With
    minSentences > maxSentences, a non-positive bound or a ratio that is
    not in (0,1], no configuration error is raised: the run returns a
    string whenever line 63 is not reached or [int()] is defined on the
    product of the number of sentences by the ratio, and on the scoring
    path that string is made of at most max(0, maxSentences) sentences;
    when line 63 is reached with a NaN product the run raises [int()]'s
    ValueError, and with an infinite product its OverflowError. *)
Theorem invalid_config_not_validated text nlp (ratio : F)
    min_sentences max_sentences :
  min_sentences > max_sentences \/ min_sentences <= 0 \/ max_sentences <= 0
  \/ flt (of_int 0) ratio = false \/ flt (of_int 1) ratio = true ->
  (Full.reaches_int STOP_WORDS text nlp = true ->
   is_nan (Full.int_argument text nlp ratio) = true ->
   Full.summarize_text_spacy STOP_WORDS text nlp ratio
     min_sentences max_sentences = Raise ValueError)
  /\ (Full.reaches_int STOP_WORDS text nlp = true ->
      is_nan (Full.int_argument text nlp ratio) = false ->
      is_inf (Full.int_argument text nlp ratio) = true ->
      Full.summarize_text_spacy STOP_WORDS text nlp ratio
        min_sentences max_sentences = Raise OverflowError)
  /\ (Full.reaches_int STOP_WORDS text nlp = false
      \/ (is_nan (Full.int_argument text nlp ratio) = false
          /\ is_inf (Full.int_argument text nlp ratio) = false) ->
      exists r,
        Full.summary_of STOP_WORDS text nlp ratio min_sentences max_sentences
        = Ok r
        /\ Full.summarize_text_spacy STOP_WORDS text nlp ratio
             min_sentences max_sentences = Ok (render r)
        /\ (count_words STOP_WORDS (Doc.tokens (nlp text)) = []
            \/ sentence_count r <= Z.max 0 max_sentences)).
Proof.
  intros _. split; [|split].
  - intros Hr Hnan.
    rewrite Full_summarize_render, Full_summary_of_outcome, Hr, Hnan.
    reflexivity.
  - intros Hr Hnan Hinf.
    rewrite Full_summarize_render, Full_summary_of_outcome, Hr, Hnan, Hinf.
    reflexivity.
  - intros Hok.
    destruct (Full_agrees text nlp ratio min_sentences max_sentences Hok)
      as [Esum Eout].
    rewrite Esum, Eout.
    destruct (summary_of_total STOP_WORDS text nlp ratio
                min_sentences max_sentences) as [r Hr].
    exists r. split; [exact Hr|].
    split; [apply summarize_of_summary, Hr|].
    destruct (count_words_cases STOP_WORDS (Doc.tokens (nlp text)))
      as [Ec | Hc]; [left; exact Ec | right].
    destruct (blank text) eqn:Hb.
    + rewrite summary_of_blank in Hr by exact Hb. injection Hr as <-.
      cbn [sentence_count]. lia.
    + destruct (Doc.sents (nlp text)) as [|s0 rest] eqn:Es.
      * rewrite summary_of_unsegmented in Hr by assumption.
        injection Hr as <-. cbn [sentence_count]. lia.
      * assert (Hne : Doc.sents (nlp text) <> []) by congruence.
        rewrite summary_of_scored in Hr by assumption. injection Hr as <-.
        cbn [sentence_count]. rewrite chosen_length.
        pose proof (target_count_upper ratio min_sentences max_sentences
                      (Z.of_nat (List.length (Doc.sents (nlp text))))).
        lia.
Qed.



End FullFacts.

(** ** Concrete runs with the failure of [int()] *)

Lemma summarize_total_witness :
  is_inf (Full.int_argument Sample.cats_text Sample.cats_nlp
            (Extended.Finite (1 # 2)))
  = false
  /\ exists out,
       Full.summarize_text_spacy Sample.STOP_WORDS Sample.cats_text
         Sample.cats_nlp (Extended.Finite (1 # 2)) 1 2
       = Ok out.
Proof.
  split; [reflexivity|].
  apply (@summarize_total Extended.t Extended.float Extended.special
           Sample.STOP_WORDS Sample.cats_text Sample.cats_nlp
           (Extended.Finite (1 # 2)) 1 2).
  - reflexivity.
  - reflexivity.
Defined.

Lemma invalid_config_not_validated_witness :
  Full.summarize_text_spacy Sample.STOP_WORDS Sample.cats_text Sample.cats_nlp
    Extended.PosInf 1 2
  = Raise OverflowError
  /\ Full.summarize_text_spacy Sample.STOP_WORDS Sample.cats_text
       Sample.cats_nlp Extended.NaN 1 2
     = Raise ValueError
  /\ exists r,
       Full.summary_of Sample.STOP_WORDS Sample.cats_text Sample.cats_nlp
         (Extended.Finite (1 # 2)) 3 1 = Ok r
       /\ Full.summarize_text_spacy Sample.STOP_WORDS Sample.cats_text
            Sample.cats_nlp (Extended.Finite (1 # 2)) 3 1 = Ok (render r)
       /\ (count_words Sample.STOP_WORDS
             (Doc.tokens (Sample.cats_nlp Sample.cats_text)) = []
           \/ sentence_count r <= Z.max 0 1).
Proof.
  split; [|split].
  - apply (@invalid_config_not_validated Extended.t Extended.float
             Extended.special Sample.STOP_WORDS Sample.cats_text
             Sample.cats_nlp Extended.PosInf 1 2).
    + right. right. right. right. reflexivity.
    + reflexivity.
    + reflexivity.
    + reflexivity.
  - apply (@invalid_config_not_validated Extended.t Extended.float
             Extended.special Sample.STOP_WORDS Sample.cats_text
             Sample.cats_nlp Extended.NaN 1 2).
    + right. right. right. left. reflexivity.
    + reflexivity.
    + reflexivity.
  - apply (@invalid_config_not_validated Extended.t Extended.float
             Extended.special Sample.STOP_WORDS Sample.cats_text
             Sample.cats_nlp (Extended.Finite (1 # 2)) 3 1).
    + left. lia.
    + right. split; reflexivity.
Defined.

(** A text file that is not valid UTF-8 makes the run raise before the
    button is looked at. *)
Example run_undecodable_upload :
  Full.run Sample.STOP_WORDS Sample.cats_nlp (Extended.Finite (1 # 2)) 3 8
    (Full.UploadFile (Some Sample3.latin1)) false
  = Raise UnicodeDecodeError.
Proof. reflexivity. Qed.

(** An infinite ratio makes the handler raise on a text with content
    words, and leaves the warning for a blank text untouched. *)
Example run_infinite_ratio :
  Full.run Sample.STOP_WORDS Sample.cats_nlp Extended.PosInf 3 8
    (Full.UploadFile (Some Sample3.notes)) true
  = Raise OverflowError
  /\ Full.run Sample.STOP_WORDS Sample.cats_nlp Extended.PosInf 3 8
       (Full.PasteText Sample2.blank_text) true
     = Ok [App.Warning].
Proof. split; vm_compute; reflexivity. Qed.

(** On the scenario of section 8 the function with [int()]'s failure
    returns what [summarize_text_spacy] returns. *)
Example scenario_cats_full :
  Full.summarize_text_spacy Sample.STOP_WORDS Sample.cats_text Sample.cats_nlp
    (Extended.Finite (1 # 2)) 1 2
  = Ok "The cat sat. The cat ran fast.".
Proof. vm_compute. reflexivity. Qed.
